(** * auto-finances: points calculation, statement upload and inbox watcher

    A shallow embedding of the three Python modules of the repository:

    - [Models]  : models.py  (Transaction, Multiplier, calculate_points)
    - [Exact]   : models.py  (calculate_points on a float amount)
    - [Main]    : main.py    (the /upload endpoint, upload_csv)
    - [Watcher] : watcher.py (validate_csv, process_file)

    Conventions.  Python [str] is Rocq [string]; the text handled here is
    ASCII, and on ASCII [str.upper], [str.lower], [str.strip], the regular
    expression classes and [str.splitlines] are as defined below.  Money is
    counted in hundredths: the column [Numeric(10, 2)] and the canonical
    schema give an amount two fractional digits, so in [Models] and [Main]
    an amount is an integer number of cents.  [Float] has the floats of
    Python and their [round], and [Exact] the method on an amount that is
    any float; the two views of the method are proved to agree on the
    amounts below 2 ^ 53 cents.  Python exceptions are values of [exn]; a
    computation that may raise returns a [result]. *)

From Stdlib Require Import ZArith Lia Bool List Ascii.
From stdpp Require Import base option gmap strings list.

Local Open Scope Z_scope.

(** ** Exceptions and fallible computations *)

Inductive exn : Type :=
| KeyError (key : string)
| TypeError (msg : string)
| AttributeError (msg : string)
| ValueError (msg : string)
| IndexError (msg : string)
| OSError (msg : string)
| UnicodeDecodeError (msg : string)
| ResponseError (msg : string)
| OverflowError (msg : string)
| CsvError (msg : string).

(** [str(e)]: the message of an exception.  [str(KeyError(k))] is the
    repr of the key. *)
Definition str_exn (e : exn) : string :=
  match e with
  | KeyError k => "'" +:+ k +:+ "'"
  | TypeError m | AttributeError m | ValueError m | IndexError m
  | OSError m | UnicodeDecodeError m | ResponseError m
  | OverflowError m | CsvError m => m
  end.

Inductive result (A : Type) : Type :=
| Ok (a : A)
| Raise (e : exn).
Arguments Ok {A} a.
Arguments Raise {A} e.

#[global] Instance result_ret : MRet result := fun A a => Ok a.

#[global] Instance result_bind : MBind result := fun A B k r =>
  match r with
  | Ok a => k a
  | Raise e => Raise e
  end.

(** ** Python string primitives, on ASCII text *)

Module Str.

Definition code (c : ascii) : nat := nat_of_ascii c.

Definition between (lo hi : nat) (c : ascii) : bool :=
  (Nat.leb lo (code c)) && (Nat.leb (code c) hi).

Definition is_upper (c : ascii) : bool := between 65 90 c.
Definition is_lower (c : ascii) : bool := between 97 122 c.
Definition is_digit (c : ascii) : bool := between 48 57 c.

(** [\w] of the [re] module: letters, digits and the underscore. *)
Definition is_word (c : ascii) : bool :=
  is_upper c || is_lower c || is_digit c || Nat.eqb (code c) 95.

(** [str.isspace]: tab, the line breaks, FS GS RS US and the blank. *)
Definition is_space (c : ascii) : bool :=
  between 9 13 c || between 28 31 c || Nat.eqb (code c) 32.

Definition upper_char (c : ascii) : ascii :=
  if is_lower c then ascii_of_nat (code c - 32) else c.

Definition lower_char (c : ascii) : ascii :=
  if is_upper c then ascii_of_nat (code c + 32) else c.

Fixpoint map (f : ascii -> ascii) (s : string) : string :=
  match s with
  | EmptyString => EmptyString
  | String c s' => String (f c) (map f s')
  end.

Definition upper (s : string) : string := map upper_char s.
Definition lower (s : string) : string := map lower_char s.

(** [s.isascii()] *)
Fixpoint isascii (s : string) : bool :=
  match s with
  | EmptyString => true
  | String c s' => Nat.ltb (code c) 128 && isascii s'
  end.

(** Truth value of a string: the empty string is falsy. *)
Definition truthy (s : string) : bool :=
  match s with
  | EmptyString => false
  | String _ _ => true
  end.

Definition head (s : string) : option ascii :=
  match s with
  | EmptyString => None
  | String c _ => Some c
  end.

(** [strip_prefix w s]: what follows [w] when [s] starts with [w]. *)
Fixpoint strip_prefix (w s : string) : option string :=
  match w, s with
  | EmptyString, _ => Some s
  | String a w', String b s' =>
      if Ascii.eqb a b then strip_prefix w' s' else None
  | String _ _, EmptyString => None
  end.

(** [w in s] *)
Fixpoint contains (w s : string) : bool :=
  match strip_prefix w s with
  | Some _ => true
  | None =>
      match s with
      | EmptyString => false
      | String _ s' => contains w s'
      end
  end.

Fixpoint lstrip (s : string) : string :=
  match s with
  | EmptyString => EmptyString
  | String c s' => if is_space c then lstrip s' else s
  end.

(** Drops the trailing white space: a character is kept when it is not a
    blank or when something is kept after it. *)
Fixpoint rstrip (s : string) : string :=
  match s with
  | EmptyString => EmptyString
  | String c s' =>
      match rstrip s' with
      | EmptyString => if is_space c then EmptyString else String c EmptyString
      | r => String c r
      end
  end.

(** [str.strip()] *)
Definition strip (s : string) : string := rstrip (lstrip s).

(** [s.endswith(w)] *)
Fixpoint endswith (w s : string) : bool :=
  if String.eqb w s then true
  else match s with
       | EmptyString => false
       | String _ s' => endswith w s'
       end.

End Str.

(** ** The two patterns of calculate_points: a literal between two [\b] *)

Module Re.

Definition is_word_opt (c : option ascii) : bool :=
  match c with
  | Some c => Str.is_word c
  | None => false
  end.

(** [\b] between the character before and the character after a position;
    outside the string counts as a non-word character. *)
Definition word_boundary (prev next : option ascii) : bool :=
  xorb (is_word_opt prev) (is_word_opt next).

Fixpoint last_of (prev : option ascii) (w : string) : option ascii :=
  match w with
  | EmptyString => prev
  | String c w' => last_of (Some c) w'
  end.

(** The pattern [\bW\b] matched at the current position, [prev] being the
    character just before it. *)
Definition match_here (prev : option ascii) (w s : string) : bool :=
  match Str.strip_prefix w s with
  | Some rest =>
      word_boundary prev (Str.head s)
      && word_boundary (last_of prev w) (Str.head rest)
  | None => false
  end.

Fixpoint search_from (prev : option ascii) (w s : string) : bool :=
  match_here prev w s
  || match s with
     | EmptyString => false
     | String c s' => search_from (Some c) w s'
     end.

(** [re.search(r'\bW\b', s)] is not [None] *)
Definition search_word (w s : string) : bool := search_from None w s.

End Re.

(** ** models.py *)

Module Models.

(** [datetime.date] *)
Record date : Type := Date { year : Z; month : Z; day : Z }.

(** A row of the table [multipliers]; the pair (category, card) is unique
    in the table ([uq_category_card]). *)
Record Multiplier : Type := {
  m_id : Z;
  m_category : string;
  m_card : string;
  m_multiplier : Z
}.

(** A [Transaction] object.  [amount] is in cents; [category] is nullable;
    [multiplier] is the relationship to the [Multiplier] row; [points] is
    the integer the method assigns, which the column [Numeric(10, 2)] holds
    with a zero fractional part, [None] standing for "not applicable".  The
    primary key, given by the store on insertion, plays no part here. *)
Record Transaction : Type := {
  transaction_date : date;
  description : string;
  amount : option Z;
  category : option string;
  card : string;
  multiplier : option Multiplier;
  points : option Z;
  user_id : Z
}.

Definition set_points (self : Transaction) (p : option Z) : Transaction :=
  {| transaction_date := transaction_date self;
     description := description self;
     amount := amount self;
     category := category self;
     card := card self;
     multiplier := multiplier self;
     points := p;
     user_id := user_id self |}.

Definition set_multiplier (self : Transaction) (m : option Multiplier)
  : Transaction :=
  {| transaction_date := transaction_date self;
     description := description self;
     amount := amount self;
     category := category self;
     card := card self;
     multiplier := m;
     points := points self;
     user_id := user_id self |}.

(** The store as the session sees it: the two tables the code reads. *)
Record Db : Type := {
  transactions : list Transaction;
  multipliers : list Multiplier
}.

(** [round(float(amount))] for an amount of [cents] hundredths: Python
    rounds a float to the nearest integer, a tie going to the even one.  A
    tie [x.50] is a float exactly, and any other two-digit amount is further
    from a tie than the error of its float, so the integer arithmetic below
    gives what the float gives. *)
Definition py_round (cents : Z) : Z :=
  let q := cents / 100 in
  let r := cents mod 100 in
  if r <? 50 then q
  else if 50 <? r then q + 1
  else if Z.even q then q else q + 1.

(** Lines 52-53: the auto-pay test on the upper-cased description. *)
Definition auto_pay (description : string) : bool :=
  let desc := Str.upper description in
  Re.search_word "AUTO" desc && Re.search_word "PAY" desc.

(** [db_session.query(Multiplier).filter_by(category=c, card=k).first()] *)
Definition query_multiplier (db : Db) (c k : string) : option Multiplier :=
  List.find (fun m => String.eqb (m_category m) c && String.eqb (m_card m) k)
            (multipliers db).

(** Truth value of [self.category]: [None] and the empty string are falsy. *)
Definition category_truthy (c : option string) : bool :=
  match c with
  | Some s => Str.truthy s
  | None => false
  end.

(** Lines 66-67: the assignment is guarded by the truth value of the
    multiplier, so by [multiplier != 0]; [amount] is only tested against
    [None]. *)
Definition assign_points (self : Transaction) : Transaction :=
  match amount self, multiplier self with
  | Some a, Some m =>
      if m_multiplier m =? 0 then self
      else set_points self (Some (py_round a * m_multiplier m))
  | _, _ => self
  end.

(** [Transaction.calculate_points(self, db_session=None)]; the method
    mutates [self], the function returns the object after the call. *)
Definition calculate_points (self : Transaction) (db_session : option Db)
  : Transaction :=
  if auto_pay (description self) then set_points self None
  else
    match db_session, category self with
    | Some db, Some c =>
        if Str.truthy c && Str.truthy (card self) then
          let self := set_multiplier self (query_multiplier db c (card self)) in
          match multiplier self with
          | None => set_points self None
          | Some _ => assign_points self
          end
        else assign_points self
    | _, _ => assign_points self
    end.

End Models.

(** ** Python floats and [round] *)

Module Float.

(** A Python float: not-a-number, an infinity, or the finite value
    [mantissa * 2 ^ exponent]; both zeros have the mantissa 0.  Every
    finite float is of this form, which is all that is used of the
    format. *)
Inductive t : Type :=
| NaN
| Infinity (negative : bool)
| Finite (mantissa exponent : Z).

(** A finite float as a fraction whose denominator is a power of two. *)
Definition numerator (m e : Z) : Z := m * 2 ^ Z.max 0 e.
Definition denominator (e : Z) : Z := 2 ^ Z.max 0 (- e).

(** The fraction [num / den] rounded to an integer, half to even: the
    quotient, moved up by one when the remainder is more than a half, or
    is a half and the quotient is odd. *)
Definition round_ratio (num den : Z) : Z :=
  let q := num / den in
  let r := num mod den in
  if 2 * r <? den then q
  else if den <? 2 * r then q + 1
  else if Z.even q then q else q + 1.

(** [round(x)] for a finite [x]. *)
Definition round_finite (m e : Z) : Z :=
  round_ratio (numerator m e) (denominator e).

(** [round(x)], which is [x.__round__()]: an [int], or the error of the
    conversion of a float that is no number. *)
Definition round (x : t) : result Z :=
  match x with
  | NaN => Raise (ValueError "cannot convert float NaN to integer")
  | Infinity _ =>
      Raise (OverflowError "cannot convert float infinity to integer")
  | Finite m e => Ok (round_finite m e)
  end.

(** [float(s)] for the decimal text [s] of an amount of [cents]
    hundredths, as [float] makes it of a cell: the float with a mantissa
    of 53 bits nearest to the amount, half to even.  [l] is the exponent
    of the leading bit of the amount; amounts are far from the ends of the
    range of the exponent. *)
Definition of_cents (cents : Z) : t :=
  let n := Z.abs cents in
  let k := Z.log2 n - 6 in
  let l := if 100 * 2 ^ Z.max 0 k <=? n * 2 ^ Z.max 0 (- k) then k
           else k - 1 in
  let e := l - 52 in
  Finite (Z.sgn cents
          * round_ratio (n * 2 ^ Z.max 0 (- e)) (100 * 2 ^ Z.max 0 e)) e.

End Float.

(** ** models.py: calculate_points on the amount as Python holds it *)

(** [Models] keeps a two-decimal amount as its number of cents, which is
    what the duplicate test and the sums compare.  Here the amount is the
    float that [upload_csv] puts into the object ([float(row["amount"])],
    main.py:180), which may be any float, and the method may raise. *)
Module Exact.
Import Models.

Record Transaction : Type := {
  transaction_date : date;
  description : string;
  amount : option Float.t;
  category : option string;
  card : string;
  multiplier : option Multiplier;
  points : option Z;
  user_id : Z
}.

Definition set_points (self : Transaction) (p : option Z) : Transaction :=
  {| transaction_date := transaction_date self;
     description := description self;
     amount := amount self;
     category := category self;
     card := card self;
     multiplier := multiplier self;
     points := p;
     user_id := user_id self |}.

Definition set_multiplier (self : Transaction) (m : option Multiplier)
  : Transaction :=
  {| transaction_date := transaction_date self;
     description := description self;
     amount := amount self;
     category := category self;
     card := card self;
     multiplier := m;
     points := points self;
     user_id := user_id self |}.

(** Lines 66-67.  [and] stops at the first falsy operand, so a multiplier
    of 0 leaves [round] uncalled; [float(self.amount)] is the amount
    itself; when [round] raises, nothing is assigned.  The pair is the
    object after the statement and the way the statement ends. *)
Definition assign_points (self : Transaction) : Transaction * result unit :=
  match amount self, multiplier self with
  | Some x, Some m =>
      if m_multiplier m =? 0 then (self, Ok tt)
      else
        match Float.round x with
        | Ok r => (set_points self (Some (r * m_multiplier m)), Ok tt)
        | Raise e => (self, Raise e)
        end
  | _, _ => (self, Ok tt)
  end.

(** [Transaction.calculate_points(self, db_session=None)]: the object
    after the call, and [Ok tt] for a return or the exception raised. *)
Definition calculate_points (self : Transaction) (db_session : option Db)
  : Transaction * result unit :=
  if auto_pay (description self) then (set_points self None, Ok tt)
  else
    match db_session, category self with
    | Some db, Some c =>
        if Str.truthy c && Str.truthy (card self) then
          let self := set_multiplier self (query_multiplier db c (card self)) in
          match multiplier self with
          | None => (set_points self None, Ok tt)
          | Some _ => assign_points self
          end
        else assign_points self
    | _, _ => assign_points self
    end.


End Exact.

(** ** main.py: the /upload endpoint *)

Module Main.
Import Models.

(** A row yielded by [csv.DictReader]: one entry per header; a cell the
    line is too short for holds [None] (the reader's [restval]). *)
Abbreviation Row := (gmap string (option string)).

Inductive response : Type :=
| Success (added skipped : Z) (filename : string)
| HTTPException (status_code : Z) (detail : string).

Definition date_eqb (a b : date) : bool :=
  (year a =? year b) && (month a =? month b) && (day a =? day b).

Definition amount_eqb (a b : option Z) : bool :=
  match a, b with
  | Some x, Some y => x =? y
  | None, None => true
  | _, _ => false
  end.

(** The filter of lines 190-195: a stored row [e] against the candidate
    [tx], on the four columns named there. *)
Definition same_key (tx e : Transaction) : bool :=
  date_eqb (transaction_date e) (transaction_date tx)
  && String.eqb (description e) (description tx)
  && amount_eqb (amount e) (amount tx)
  && String.eqb (card e) (card tx).

(** [db.query(Transaction).filter_by(...).first()].  The session is made
    with [autoflush=False] (line 30): a query reads the rows of the store
    and does not see the objects added to the session and not yet
    committed. *)
Definition query_transaction (db : Db) (tx : Transaction)
  : option Transaction :=
  List.find (same_key tx) (transactions db).

(** [db.commit()]: the pending objects become rows of the store. *)
Definition commit (db : Db) (pending : list Transaction) : Db :=
  {| transactions := transactions db ++ pending;
     multipliers := multipliers db |}.

(** [row[key]] *)
Definition getitem (row : Row) (key : string) : result (option string) :=
  match row !! key with
  | Some v => Ok v
  | None => Raise (KeyError key)
  end.

(** [cell.strip()] on a cell that may be [None] *)
Definition cell_strip (cell : option string) : result string :=
  match cell with
  | Some s => Ok (Str.strip s)
  | None => Raise (AttributeError "'NoneType' object has no attribute 'strip'")
  end.

Section Upload.

(** The two parsers of the standard library, each returning the value or
    the exception it raises: [date.fromisoformat] and [float], the latter
    giving the amount in cents. *)
Variable date_fromisoformat : string -> result date.
Variable float : string -> result Z.

Definition cell_date (cell : option string) : result date :=
  match cell with
  | Some s => date_fromisoformat s
  | None => Raise (TypeError "fromisoformat: argument must be str")
  end.

Definition cell_float (cell : option string) : result Z :=
  match cell with
  | Some s => float s
  | None =>
      Raise (TypeError
        "float() argument must be a string or a real number, not 'NoneType'")
  end.

(** Lines 176-184: the candidate built from a row, the cells read in the
    order the code reads them. *)
Definition new_transaction (row : Row) (uid : Z) : result Transaction :=
  tx_date ← getitem row "transaction_date" ≫= cell_date;
  desc ← getitem row "description" ≫= cell_strip;
  amt ← getitem row "amount" ≫= cell_float;
  cat ← getitem row "category" ≫= cell_strip;
  crd ← getitem row "card" ≫= cell_strip;
  mret {| transaction_date := tx_date;
          description := desc;
          amount := Some amt;
          category := Some cat;
          card := crd;
          multiplier := None;
          points := None;
          user_id := uid |}.

(** The state of the loop of lines 174-205. *)
Record progress : Type := {
  added : Z;
  skipped : Z;
  pending : list Transaction
}.

(** One turn of the loop: build the candidate, compute its points, look
    for a stored row with the same key, then skip or add. *)
Definition step (db : Db) (uid : Z) (st : progress) (row : Row)
  : result progress :=
  tx ← new_transaction row uid;
  let tx := calculate_points tx (Some db) in
  match query_transaction db tx with
  | Some _ =>
      mret {| added := added st;
              skipped := skipped st + 1;
              pending := pending st |}
  | None =>
      mret {| added := added st + 1;
              skipped := skipped st;
              pending := pending st ++ [tx] |}
  end.

Fixpoint for_rows (db : Db) (uid : Z) (st : progress) (csv_reader : list Row)
  : result progress :=
  match csv_reader with
  | [] => Ok st
  | row :: rest => st' ← step db uid st row; for_rows db uid st' rest
  end.

(** [upload_csv(file, db, user)]: the response, and the store when the
    request is over.  [csv_reader] is the sequence of rows the
    [DictReader] yields for the decoded body.  An exception leaves the
    handler before [db.commit()], and the session is closed with nothing
    written. *)
Definition upload_csv (filename : string) (csv_reader : list Row)
    (db : Db) (uid : Z) : response * Db :=
  if negb (Str.endswith ".csv" filename) then
    (HTTPException 400 "Only CSV files are accepted.", db)
  else
    match for_rows db uid {| added := 0; skipped := 0; pending := [] |}
                   csv_reader with
    | Raise e =>
        (HTTPException 400 ("Row parsing failed: " +:+ str_exn e), db)
    | Ok st =>
        (Success (added st) (skipped st) filename, commit db (pending st))
    end.

End Upload.

End Main.

(** ** The csv reader, as validate_csv uses it *)

Module Csv.

(** A line boundary of [str.splitlines]: LF, VT, FF, CR, FS, GS, RS. *)
Definition is_linebreak (c : ascii) : bool :=
  Str.between 10 13 c || Str.between 28 30 c.

Definition is_cr (c : ascii) : bool := Nat.eqb (Str.code c) 13.
Definition is_lf (c : ascii) : bool := Nat.eqb (Str.code c) 10.

(** [cur] is the line being read; [after_cr] tells that the last character
    was a CR, whose LF, if it comes next, belongs to the same boundary. *)
Fixpoint splitlines_from (cur : string) (after_cr : bool) (s : string)
  : list string :=
  match s with
  | EmptyString => if Str.truthy cur then [cur] else []
  | String c s' =>
      if after_cr && is_lf c then splitlines_from EmptyString false s'
      else if is_linebreak c then cur :: splitlines_from EmptyString (is_cr c) s'
      else splitlines_from (cur +:+ String c EmptyString) false s'
  end.

(** [s.splitlines()] *)
Definition splitlines (s : string) : list string :=
  splitlines_from EmptyString false s.

(** The states of the reader of the csv module that the excel dialect
    reaches on lines without line breaks (the dialect has no escape
    character, and [splitlines] leaves no CR or LF in a line). *)
Inductive state : Type :=
| START_RECORD
| START_FIELD
| IN_FIELD
| IN_QUOTED_FIELD
| QUOTE_IN_QUOTED_FIELD.

Record reader : Type := {
  st : state;
  field : string;
  fields : list string
}.

Definition parse_reset : reader :=
  {| st := START_RECORD; field := EmptyString; fields := [] |}.

Definition set_state (r : reader) (s : state) : reader :=
  {| st := s; field := field r; fields := fields r |}.

(** [csv.field_size_limit()], which nothing in the program changes. *)
Definition field_limit : Z := 131072.

(** The [_csv.Error] of a field that already holds [field_limit]
    characters and is given one more. *)
Definition field_limit_error : exn :=
  CsvError "field larger than field limit (131072)".

Definition parse_add_char (r : reader) (c : ascii) : result reader :=
  if field_limit <=? Z.of_nat (String.length (field r)) then
    Raise field_limit_error
  else
    Ok {| st := st r; field := field r +:+ String c EmptyString;
          fields := fields r |}.

Definition parse_save_field (r : reader) : reader :=
  {| st := st r; field := EmptyString; fields := fields r ++ [field r] |}.

Definition is_delimiter (c : ascii) : bool := Nat.eqb (Str.code c) 44.
Definition is_quotechar (c : ascii) : bool := Nat.eqb (Str.code c) 34.

(** A character at the start of a field. *)
Definition start_field (r : reader) (c : ascii) : result reader :=
  if is_quotechar c then Ok (set_state r IN_QUOTED_FIELD)
  else if is_delimiter c then Ok (parse_save_field r)
  else r' ← parse_add_char r c; Ok (set_state r' IN_FIELD).

(** One character of a line ([Some c]) or the end of the line ([None]). *)
Definition parse_process_char (r : reader) (c : option ascii)
  : result reader :=
  match st r, c with
  | START_RECORD, None => Ok r
  | START_RECORD, Some c => start_field (set_state r START_FIELD) c
  | START_FIELD, None => Ok (set_state (parse_save_field r) START_RECORD)
  | START_FIELD, Some c => start_field r c
  | IN_FIELD, None => Ok (set_state (parse_save_field r) START_RECORD)
  | IN_FIELD, Some c =>
      if is_delimiter c then Ok (set_state (parse_save_field r) START_FIELD)
      else parse_add_char r c
  | IN_QUOTED_FIELD, None => Ok r
  | IN_QUOTED_FIELD, Some c =>
      if is_quotechar c then Ok (set_state r QUOTE_IN_QUOTED_FIELD)
      else parse_add_char r c
  | QUOTE_IN_QUOTED_FIELD, None =>
      Ok (set_state (parse_save_field r) START_RECORD)
  | QUOTE_IN_QUOTED_FIELD, Some c =>
      if is_quotechar c then
        r' ← parse_add_char r c; Ok (set_state r' IN_QUOTED_FIELD)
      else if is_delimiter c then
        Ok (set_state (parse_save_field r) START_FIELD)
      else r' ← parse_add_char r c; Ok (set_state r' IN_FIELD)
  end.

Fixpoint parse_line (r : reader) (line : string) : result reader :=
  match line with
  | EmptyString => parse_process_char r None
  | String c line' =>
      r' ← parse_process_char r (Some c); parse_line r' line'
  end.

Definition state_eqb (a b : state) : bool :=
  match a, b with
  | START_RECORD, START_RECORD | START_FIELD, START_FIELD
  | IN_FIELD, IN_FIELD | IN_QUOTED_FIELD, IN_QUOTED_FIELD
  | QUOTE_IN_QUOTED_FIELD, QUOTE_IN_QUOTED_FIELD => true
  | _, _ => false
  end.

(** Lines are read until a record is complete; at the end of the input an
    open field closes the record, and with nothing read there is none.  A
    field beyond the limit ends the reading with the error of the
    reader. *)
Fixpoint read_record (r : reader) (lines : list string)
  : result (option (list string)) :=
  match lines with
  | [] =>
      if Str.truthy (field r) || state_eqb (st r) IN_QUOTED_FIELD
      then Ok (Some (fields (parse_save_field r)))
      else Ok None
  | line :: rest =>
      r' ← parse_line r line;
      if state_eqb (st r') START_RECORD then Ok (Some (fields r'))
      else read_record r' rest
  end.

(** [csv.DictReader(lines).fieldnames]: the first record of the reader,
    [None] when the reader has none, or the error of the reader. *)
Definition fieldnames (lines : list string)
  : result (option (list string)) :=
  read_record parse_reset lines.

End Csv.

(** ** watcher.py *)

Module Watcher.

Definition nl : string := String (ascii_of_nat 10) EmptyString.

(** A path: the directory and the file name. *)
Abbreviation Path := (string * string)%type.

Definition parent (p : Path) : string := fst p.
Definition name (p : Path) : string := snd p.

(** [dir / file_name] *)
Definition joinpath (dir file_name : string) : Path := (dir, file_name).

(** The configured places; [expanduser] puts the same home directory in
    front of each, which keeps them apart. *)
Definition INCOMING_DIR : string := "~/Finances/Documents/Incoming".
Definition PROCESSED_DIR : string := "~/Finances/Documents/Processed".
Definition FAILED_DIR : string := "~/Finances/Documents/Failed".
Definition STANDARD_HEADERS : list string :=
  ["transaction_date"; "description"; "amount"; "category"; "card"].

Definition is_dot (c : ascii) : bool := Nat.eqb (Str.code c) 46.

(** [rsplit_dot s]: the text before the last dot of [s], and the text from
    that dot on; [None] when [s] has no dot. *)
Fixpoint rsplit_dot (s : string) : option (string * string) :=
  match s with
  | EmptyString => None
  | String c s' =>
      match rsplit_dot s' with
      | Some (a, b) => Some (String c a, b)
      | None => if is_dot c then Some (EmptyString, s) else None
      end
  end.

(** [PurePath.suffix]: with [i] the place of the last dot, the name from
    [i] on when [0 < i < len(name) - 1], and nothing otherwise. *)
Definition suffix (p : Path) : string :=
  match rsplit_dot (name p) with
  | Some (a, b) =>
      if Str.truthy a && negb (String.eqb b ".") then b else EmptyString
  | None => EmptyString
  end.

(** [PurePath.stem] *)
Definition stem (p : Path) : string :=
  match rsplit_dot (name p) with
  | Some (a, b) =>
      if Str.truthy a && negb (String.eqb b ".") then a else name p
  | None => name p
  end.

(** [p.with_suffix(s)] for a suffix [s] that starts with a dot, as
    [".processed"] does. *)
Definition with_suffix (p : Path) (s : string) : result Path :=
  if Str.truthy (name p) then Ok (parent p, stem p +:+ s)
  else Raise (ValueError "path has an empty name").

(** [s.split("_")[0]] *)
Fixpoint before_underscore (s : string) : string :=
  match s with
  | EmptyString => EmptyString
  | String c s' =>
      if Nat.eqb (Str.code c) 95 then EmptyString
      else String c (before_underscore s')
  end.

(** What a path holds: a file whose bytes are text, or one [read_text]
    cannot decode, with the message of the decoder. *)
Inductive file : Type :=
| TextFile (text : string)
| BinaryFile (why : string).

Record LogEntry : Type := {
  timestamp : Z;
  filename : string;
  status : string;
  message : string
}.

(** Everything process_file can touch: the files, the lines of
    watcher_log.csv, the prompts sent to the model, the lines printed,
    and the clock it reads. *)
Record World : Type := {
  fs : gmap Path file;
  log : list LogEntry;
  requests : list string;
  stdout : list string;
  clock : Z
}.

Definition set_fs (w : World) (f : gmap Path file) : World :=
  {| fs := f; log := log w; requests := requests w; stdout := stdout w;
     clock := clock w |}.

(** A command: it changes the world and returns or raises. *)
Definition M (A : Type) : Type := World -> World * result A.

#[global] Instance M_ret : MRet M := fun A a w => (w, Ok a).

#[global] Instance M_bind : MBind M := fun A B k m w =>
  match m w with
  | (w', Ok a) => k a w'
  | (w', Raise e) => (w', Raise e)
  end.

Definition raise {A : Type} (e : exn) : M A := fun w => (w, Raise e).

Definition lift {A : Type} (r : result A) : M A := fun w => (w, r).

(** [try: body except Exception as e: handler(e)] *)
Definition try_except {A : Type} (body : M A) (handler : exn -> M A) : M A :=
  fun w =>
    match body w with
    | (w', Ok a) => (w', Ok a)
    | (w', Raise e) => handler e w'
    end.

(** [p.exists()] *)
Definition path_exists (p : Path) : M bool :=
  fun w => (w, Ok (bool_decide (is_Some (fs w !! p)))).

(** [p.read_text()] *)
Definition read_text (p : Path) : M string :=
  fun w =>
    match fs w !! p with
    | Some (TextFile s) => (w, Ok s)
    | Some (BinaryFile why) => (w, Raise (UnicodeDecodeError why))
    | None => (w, Raise (OSError "No such file or directory"))
    end.

(** [p.write_text(s)] *)
Definition write_text (p : Path) (s : string) : M unit :=
  fun w => (set_fs w (<[p := TextFile s]> (fs w)), Ok tt).

(** [p.touch()]: an absent file is created empty, a present one is kept. *)
Definition touch (p : Path) : M unit :=
  fun w =>
    match fs w !! p with
    | Some _ => (w, Ok tt)
    | None => (set_fs w (<[p := TextFile EmptyString]> (fs w)), Ok tt)
    end.

(** [shutil.move(src, dst)] between files: a rename, which replaces what
    [dst] held. *)
Definition move (src dst : Path) : M unit :=
  fun w =>
    match fs w !! src with
    | Some f => (set_fs w (<[dst := f]> (delete src (fs w))), Ok tt)
    | None => (w, Raise (OSError "No such file or directory"))
    end.

(** [print(line)] *)
Definition print (line : string) : M unit :=
  fun w =>
    ({| fs := fs w; log := log w; requests := requests w;
        stdout := stdout w ++ [line]; clock := clock w |}, Ok tt).

(** [datetime.now()] *)
Definition now : M Z := fun w => (w, Ok (clock w)).

(** [log_event(filename, status, message="")]: one line appended to the
    log, made of the time, the file name, the status and the message. *)
Definition log_event (file_name stat msg : string) : M unit :=
  fun w =>
    ({| fs := fs w;
        log := log w ++ [ {| timestamp := clock w; filename := file_name;
                             status := stat; message := msg |} ];
        requests := requests w; stdout := stdout w; clock := clock w |},
     Ok tt).

(** [validate_csv(content)]: [set(None)] raises when the reader has no
    record, and an error of the reader goes through. *)
Definition validate_csv (content : string) : result bool :=
  match Csv.fieldnames (Csv.splitlines content) with
  | Ok (Some names) =>
      Ok (bool_decide ((list_to_set STANDARD_HEADERS : gset string)
                         ⊆ list_to_set names))
  | Ok None => Raise (TypeError "'NoneType' object is not iterable")
  | Raise e => Raise e
  end.

(** [lines[0]] *)
Definition first_line (lines : list string) : result string :=
  match lines with
  | l :: _ => Ok l
  | [] => Raise (IndexError "list index out of range")
  end.

Section Process.

(** The model behind [ollama.chat]: for a prompt, the text of the reply
    ([response['message']['content']]) or the exception of the call. *)
Variable ollama_chat : string -> result string.

(** [strftime("%Y%m%d%H%M%S")] of a time *)
Variable strftime : Z -> string.

Definition prompt (raw_csv card_name : string) : string :=
  nl +:+ "You are a financial transaction normalizer." +:+ nl
  +:+ "Given raw CSV data from a credit card statement, return only valid transaction rows in CSV format with the headers:" +:+ nl
  +:+ "transaction_date, description, amount, category, card" +:+ nl
  +:+ nl
  +:+ "Requirements:" +:+ nl
  +:+ "- Dates must be ISO format: YYYY-MM-DD" +:+ nl
  +:+ "- Amount must be numeric, no currency symbols" +:+ nl
  +:+ "- Card must be set to: " +:+ card_name +:+ nl
  +:+ "- No introductory/explanatory text. Just CSV output." +:+ nl
  +:+ nl
  +:+ "Here is the raw data:" +:+ nl
  +:+ raw_csv +:+ nl.

(** [normalize_csv_via_ollama(raw_csv, card_name)]: one request, recorded
    in the world, and its reply. *)
Definition normalize_csv_via_ollama (raw_csv card_name : string) : M string :=
  fun w =>
    let p := prompt raw_csv card_name in
    ({| fs := fs w; log := log w; requests := requests w ++ [p];
        stdout := stdout w; clock := clock w |},
     ollama_chat p).

(** Lines 58-74: the body of the [try]. *)
Definition attempt (file_path lock_file : Path) (card_name : string)
  : M unit :=
  raw ← read_text file_path;
  normalized ← normalize_csv_via_ollama raw card_name;
  first ← lift (first_line (Csv.splitlines normalized));
  if negb (Str.contains "transaction_date" (Str.lower first)) then
    raise (ValueError "Ollama response missing headers")
  else
    valid ← lift (validate_csv normalized);
    if valid : bool then
      t ← now;
      let out_path :=
        joinpath PROCESSED_DIR
          (stem file_path +:+ "_normalized_" +:+ strftime t +:+ ".csv") in
      write_text out_path normalized;;
      move file_path (joinpath PROCESSED_DIR ("raw_" +:+ name file_path));;
      touch lock_file;;
      log_event (name file_path) "processed" EmptyString;;
      print ("✅ Processed: " +:+ name file_path)
    else
      raise (ValueError "Validation failed: CSV headers missing or incorrect").

(** Lines 76-79: the handler. *)
Definition on_failure (file_path : Path) (e : exn) : M unit :=
  move file_path (joinpath FAILED_DIR (name file_path));;
  log_event (name file_path) "failed" (str_exn e);;
  print ("❌ Failed: " +:+ name file_path +:+ " — " +:+ str_exn e).

(** [process_file(file_path)] *)
Definition process_file (file_path : Path) : M unit :=
  let card_name := Str.lower (before_underscore (stem file_path)) in
  lock_file ← lift (with_suffix file_path ".processed");
  marked ← path_exists lock_file;
  if marked : bool then mret tt
  else try_except (attempt file_path lock_file card_name)
                  (on_failure file_path).

(** The [for] loop of [main] over the files one scan of the inbox lists:
    an exception that leaves [process_file] ends the loop. *)
Fixpoint process_all (files : list Path) : M unit :=
  match files with
  | [] => mret tt
  | f :: rest => process_file f;; process_all rest
  end.

End Process.

End Watcher.

(** * Vocabulary of the specification and sample data *)

Module Vocabulary.
Import Models Main Watcher.

(** [w] occurs in [s] as a whole word: an occurrence with no word
    character just before it and none just after it. *)
Definition whole_word (w s : string) : Prop :=
  exists pre post : string,
    s = pre +:+ w +:+ post
    /\ Re.is_word_opt (Re.last_of None pre) = false
    /\ Re.is_word_opt (Str.head post) = false.

(** The auto-pay exclusion, in the words of the specification. *)
Definition auto_pay_rule (description : string) : Prop :=
  whole_word "AUTO" (Str.upper description)
  /\ whole_word "PAY" (Str.upper description).

(** A literal that starts and ends with a word character. *)
Definition wordlike (w : string) : Prop :=
  Re.is_word_opt (Str.head w) = true
  /\ forall prev, Re.is_word_opt (Re.last_of prev w) = true.

(** The four columns of the duplicate test agree. *)
Definition natural_key_eq (a b : Transaction) : Prop :=
  transaction_date a = transaction_date b
  /\ description a = description b
  /\ amount a = amount b
  /\ card a = card b.


(** The five cells upload_csv reads from a row. *)
Definition CELLS : list string :=
  ["transaction_date"; "description"; "amount"; "category"; "card"].

(** A row that fails to parse: a cell is missing, the date is rejected by
    [date.fromisoformat], or the amount is rejected by [float]. *)
Definition parse_fails (date_fromisoformat : string -> result date)
    (float : string -> result Z) (row : Row) : Prop :=
  (exists k : string,
     k ∈ CELLS /\ (row !! k = None \/ row !! k = Some None))
  \/ (exists (s : string) (e : exn),
        row !! "transaction_date" = Some (Some s)
        /\ date_fromisoformat s = Raise e)
  \/ (exists (s : string) (e : exn),
        row !! "amount" = Some (Some s) /\ float s = Raise e).

(** The completion marker of a file: its sibling with the same stem and the
    suffix ".processed". *)
Definition marker (file_path : Path) : Path :=
  (parent file_path, stem file_path +:+ ".processed").

(** The card label process_file derives from the file name. *)
Definition card_label (file_path : Path) : string :=
  Str.lower (before_underscore (stem file_path)).

(** A step of the processing of the file content [f] fails with the
    exception [e]: reading it as text, the call of the model, the gate on
    the first line of the reply, or the validation of the reply. *)
Inductive step_fails (ollama_chat : string -> result string)
    (card_name : string) (f : file) : exn -> Prop :=
| read_fails (why : string) :
    f = BinaryFile why ->
    step_fails ollama_chat card_name f (UnicodeDecodeError why)
| normalization_fails (raw : string) (e : exn) :
    f = TextFile raw ->
    ollama_chat (prompt raw card_name) = Raise e ->
    step_fails ollama_chat card_name f e
| gate_fails_no_line (raw normalized : string) :
    f = TextFile raw ->
    ollama_chat (prompt raw card_name) = Ok normalized ->
    Csv.splitlines normalized = [] ->
    step_fails ollama_chat card_name f (IndexError "list index out of range")
| gate_fails (raw normalized first : string) (rest : list string) :
    f = TextFile raw ->
    ollama_chat (prompt raw card_name) = Ok normalized ->
    Csv.splitlines normalized = first :: rest ->
    Str.contains "transaction_date" (Str.lower first) = false ->
    step_fails ollama_chat card_name f
      (ValueError "Ollama response missing headers")
| validation_fails (raw normalized first : string) (rest : list string) :
    f = TextFile raw ->
    ollama_chat (prompt raw card_name) = Ok normalized ->
    Csv.splitlines normalized = first :: rest ->
    Str.contains "transaction_date" (Str.lower first) = true ->
    validate_csv normalized = Ok false ->
    step_fails ollama_chat card_name f
      (ValueError "Validation failed: CSV headers missing or incorrect")
| validation_raises (raw normalized first : string) (rest : list string)
    (e : exn) :
    f = TextFile raw ->
    ollama_chat (prompt raw card_name) = Ok normalized ->
    Csv.splitlines normalized = first :: rest ->
    Str.contains "transaction_date" (Str.lower first) = true ->
    validate_csv normalized = Raise e ->
    step_fails ollama_chat card_name f e.

(** The line process_file adds to the log for a failure. *)
Definition failed_entry (w : World) (file_path : Path) (e : exn) : LogEntry :=
  {| timestamp := clock w; filename := name file_path; status := "failed";
     message := str_exn e |}.

(** [r] is an integer nearest to the finite float [m * 2 ^ e], and the
    even one when two integers are equally near. *)
Definition nearest_even (r m e : Z) : Prop :=
  let n := Float.numerator m e in
  let d := Float.denominator e in
  2 * Z.abs (r * d - n) <= d
  /\ (2 * Z.abs (r * d - n) = d -> Z.even r = true).

(** The float [x] holds the amount of [cents] hundredths: it is finite,
    within 1/128 of the amount, and is the amount when that is an integer
    and a half. *)
Definition holds (x : Float.t) (cents : Z) : Prop :=
  match x with
  | Float.Finite m e =>
      let n := Float.numerator m e in
      let d := Float.denominator e in
      128 * Z.abs (100 * n - cents * d) <= 100 * d
      /\ (cents mod 100 = 50 -> 100 * n = cents * d)
  | _ => False
  end.

Definition holds_opt (x : option Float.t) (cents : option Z) : Prop :=
  match x, cents with
  | Some x, Some c => holds x c
  | None, None => True
  | _, _ => False
  end.

(** The object [tx], with its float amount, and the object [tx'], with
    its amount in cents, are the same transaction. *)
Definition in_cents (tx : Exact.Transaction) (tx' : Transaction) : Prop :=
  Exact.transaction_date tx = transaction_date tx'
  /\ Exact.description tx = description tx'
  /\ holds_opt (Exact.amount tx) (amount tx')
  /\ Exact.category tx = category tx'
  /\ Exact.card tx = card tx'
  /\ Exact.multiplier tx = multiplier tx'
  /\ Exact.points tx = points tx'
  /\ Exact.user_id tx = user_id tx'.

(** The object with its amount as the float of its cents. *)
Definition as_float (tx : Transaction) : Exact.Transaction :=
  {| Exact.transaction_date := transaction_date tx;
     Exact.description := description tx;
     Exact.amount := option_map Float.of_cents (amount tx);
     Exact.category := category tx;
     Exact.card := card tx;
     Exact.multiplier := multiplier tx;
     Exact.points := points tx;
     Exact.user_id := user_id tx |}.


(** No character of [s] is a line boundary. *)
Fixpoint breakless (s : string) : bool :=
  match s with
  | EmptyString => true
  | String c s' => negb (Csv.is_linebreak c) && breakless s'
  end.

End Vocabulary.

Module Samples.
Import Models Main Watcher.

Definition cell (s : string) : option string := Some s.

(** The two parsers on the cells of the sample rows. *)
Definition fromisoformat_sample (s : string) : result date :=
  if String.eqb s "2024-03-01" then Ok (Date 2024 3 1)
  else if String.eqb s "2024-03-02" then Ok (Date 2024 3 2)
  else Raise (ValueError ("Invalid isoformat string: '" +:+ s +:+ "'")).

Definition float_sample (s : string) : result Z :=
  if String.eqb s "4.50" then Ok 450
  else if String.eqb s "250.00" then Ok 25000
  else Raise (ValueError ("could not convert string to float: '" +:+ s +:+ "'")).

Definition dining_amex (m : Z) : Multiplier :=
  {| m_id := 1; m_category := "Dining"; m_card := "Amex"; m_multiplier := m |}.

Definition payment_amex (m : Z) : Multiplier :=
  {| m_id := 2; m_category := "Payment"; m_card := "Amex"; m_multiplier := m |}.

Definition table (rows : list Multiplier) : Db :=
  {| transactions := []; multipliers := rows |}.

(** 2024-03-01, STARBUCKS, 4.50, Dining, Amex *)
Definition starbucks : Transaction :=
  {| transaction_date := Date 2024 3 1; description := "STARBUCKS";
     amount := Some 450; category := Some "Dining"; card := "Amex";
     multiplier := None; points := None; user_id := 1 |}.



(** 2024-03-02, AUTOPAY THANK YOU, 250.00, Payment, Amex *)
Definition autopay_thank_you : Transaction :=
  {| transaction_date := Date 2024 3 2; description := "AUTOPAY THANK YOU";
     amount := Some 25000; category := Some "Payment"; card := "Amex";
     multiplier := None; points := None; user_id := 1 |}.

(** 2024-03-02, Auto Pay - thank you, 250.00, Payment, Amex *)
Definition auto_pay_thank_you : Transaction :=
  {| transaction_date := Date 2024 3 2; description := "Auto Pay - thank you";
     amount := Some 25000; category := Some "Payment"; card := "Amex";
     multiplier := None; points := None; user_id := 1 |}.

Definition row_of (d desc amt cat crd : string) : Row :=
  {[ "transaction_date" := cell d; "description" := cell desc;
     "amount" := cell amt; "category" := cell cat; "card" := cell crd ]}.

Definition starbucks_dining : Row :=
  row_of "2024-03-01" "STARBUCKS" "4.50" "Dining" "Amex".

Definition starbucks_restaurants : Row :=
  row_of "2024-03-01" "STARBUCKS" "4.50" "Restaurants" "Amex".

Definition bad_amount : Row :=
  row_of "2024-03-01" "STARBUCKS" "four" "Dining" "Amex".

(** The second row of the statement with two categories. *)
Definition starbucks_as_restaurants : Transaction :=
  {| transaction_date := Date 2024 3 1; description := "STARBUCKS";
     amount := Some 450; category := Some "Restaurants"; card := "Amex";
     multiplier := None; points := None; user_id := 1 |}.

(** The same purchase, stored for user 2. *)
Definition starbucks_of_user_2 : Transaction :=
  {| transaction_date := Date 2024 3 1; description := "STARBUCKS";
     amount := Some 450; category := Some "Dining"; card := "Amex";
     multiplier := Some (dining_amex 3); points := Some 12; user_id := 2 |}.

Definition store_of_user_2 : Db :=
  {| transactions := [starbucks_of_user_2];
     multipliers := [dining_amex 3] |}.

(** An inbox file, its marker, and two worlds that hold the file, the
    second with the marker. *)
Definition amex_march : Path := joinpath INCOMING_DIR "amex_2024.csv".

Definition amex_march_marker : Path :=
  joinpath INCOMING_DIR "amex_2024.processed".

Definition world_unmarked : World :=
  {| fs := {[ amex_march := TextFile "Date,Desc,Amt" ]};
     log := []; requests := []; stdout := []; clock := 7 |}.

Definition world_marked : World :=
  {| fs := {[ amex_march := TextFile "Date,Desc,Amt";
              amex_march_marker := TextFile EmptyString ]};
     log := []; requests := []; stdout := []; clock := 7 |}.

(** A reply of the model that opens with prose. *)
Definition chat_prose (p : string) : result string :=
  Ok "Sure! Here is your CSV".

Definition stamp (t : Z) : string := "20240301120000".

(** A header line with the five names out of order and one more. *)
Definition shuffled_header : string :=
  "card,amount,transaction_date,memo,description,category".



End Samples.

(** * The rest of main.py and of the poller *)

(** ** models.py: the users *)

Module Accounts.

(** A row of the table [users]; [username] is unique in the table. *)
Record UserModel : Type := {
  id : Z;
  username : string;
  email : string;
  hashed_password : string;
  is_active : bool
}.

(** [db.query(UserModel).filter(UserModel.username == name).first()] *)
Definition query_user (users : list UserModel) (name : string)
  : option UserModel :=
  List.find (fun u => String.eqb (username u) name) users.

End Accounts.

(** ** main.py: identity *)

Module Auth.
Import Accounts.

(** A value of a token payload: a text or a time. *)
Inductive claim : Type :=
| ClaimStr (s : string)
| ClaimTime (t : Z).

(** What [jwt.decode] does with a token: the payload, [JWTError] (a bad
    signature, an expired token, a malformed claim), or another
    exception. *)
Inductive decoded : Type :=
| Payload (p : gmap string claim)
| JWTError
| DecodeRaises (e : exn).

(** The end of a request handler or of a dependency: a value, an
    [HTTPException], or an exception nothing catches. *)
Inductive outcome (A : Type) : Type :=
| Return (a : A)
| HTTPError (status_code : Z) (detail : string)
| Uncaught (e : exn).
Arguments Return {A} a.
Arguments HTTPError {A} status_code detail.
Arguments Uncaught {A} e.

(** Truth value of the object [payload.get("sub")] gives. *)
Definition claim_truthy (c : option claim) : bool :=
  match c with
  | Some (ClaimStr s) => Str.truthy s
  | Some (ClaimTime t) => negb (t =? 0)
  | None => false
  end.

(** [UserModel.username == c] in the filter: a text column equals a text
    of the same characters. *)
Definition query_user_by_claim (users : list UserModel) (c : claim)
  : option UserModel :=
  match c with
  | ClaimStr s => query_user users s
  | ClaimTime _ => None
  end.

Section Identity.

(** [pwd_context.verify(plain, hashed)], [jwt.encode] and [jwt.decode]
    with the key and the algorithm of the environment. *)
Variable verify : string -> string -> result bool.
Variable jwt_encode : gmap string claim -> string.
Variable jwt_decode : string -> decoded.

(** [verify_password(plain, hashed)] *)
Definition verify_password (plain hashed : string) : result bool :=
  verify plain hashed.

(** [authenticate_user(db, username, password)]: the password is checked
    only for a user that exists. *)
Definition authenticate_user (users : list UserModel)
    (name password : string) : result (option UserModel) :=
  match query_user users name with
  | None => Ok None
  | Some user =>
      ok ← verify_password password (hashed_password user);
      if ok : bool then Ok (Some user) else Ok None
  end.

(** [create_access_token(data, expires_delta)] at the time [utcnow]: a
    copy of [data] with the claim "exp", encoded. *)
Definition create_access_token (utcnow : Z) (data : gmap string claim)
    (expires_delta : Z) : string :=
  let to_encode := <["exp" := ClaimTime (utcnow + expires_delta)]> data in
  jwt_encode to_encode.

Definition credentials_exception {A : Type} : outcome A :=
  HTTPError 401 "Invalid authentication credentials".

(** [get_current_user(token, db)] *)
Definition get_current_user (token : string) (users : list UserModel)
  : outcome UserModel :=
  match jwt_decode token with
  | JWTError => credentials_exception
  | DecodeRaises e => Uncaught e
  | Payload payload =>
      let sub := payload !! "sub" in
      if negb (claim_truthy sub) then credentials_exception
      else
        match sub with
        | Some c =>
            match query_user_by_claim users c with
            | Some user => Return user
            | None => credentials_exception
            end
        | None => credentials_exception
        end
  end.

End Identity.

End Auth.

(** ** main.py: the other endpoints *)

Module Endpoints.
Import Models Main Accounts Auth.

(** [a >= b] on dates *)
Definition date_geb (a b : date) : bool :=
  (year b <? year a)
  || ((year a =? year b)
      && ((month b <? month a)
          || ((month a =? month b) && (day b <=? day a)))).

(** [a] is not older than [b]. *)
Definition newest_first (a b : Transaction) : Prop :=
  date_geb (transaction_date a) (transaction_date b) = true.

(** Every row is not older than the rows after it. *)
Fixpoint dates_descend (l : list Transaction) : Prop :=
  match l with
  | [] => True
  | x :: rest => Forall (newest_first x) rest /\ dates_descend rest
  end.

Section Reading.

(** The store's answer to ORDER BY transaction_date DESC: the rows given,
    in an order the store chooses among those that respect the dates. *)
Variable order_by_date_desc : list Transaction -> list Transaction.

(** The store's answer to the query when its OFFSET or its LIMIT is
    negative, on which stores differ: one refuses the query, another takes
    a negative LIMIT for none. *)
Variable negative_window :
  Z -> Z -> list Transaction -> result (list Transaction).

(** [read_transactions(db, user, skip, limit)]; [skip] and [limit] are any
    integers of the request, passed to the query as they come. *)
Definition read_transactions (db : Db) (user : UserModel) (skip limit : Z)
  : result (list Transaction) :=
  let mine :=
    List.filter (fun t => user_id t =? id user) (transactions db) in
  let rows := order_by_date_desc mine in
  if (skip <? 0) || (limit <? 0) then negative_window skip limit rows
  else Ok (firstn (Z.to_nat limit) (skipn (Z.to_nat skip) rows)).

End Reading.

(** SUM over a column: NULL when no row has a value. *)
Fixpoint sql_sum (column : list (option Z)) : option Z :=
  match column with
  | [] => None
  | v :: rest =>
      match v, sql_sum rest with
      | Some x, Some s => Some (x + s)
      | Some x, None => Some x
      | None, s => s
      end
  end.

(** [value or 0] *)
Definition or_zero (value : option Z) : Z :=
  match value with
  | Some x => if x =? 0 then 0 else x
  | None => 0
  end.

Record Summary : Type := {
  total_spent : Z;
  total_points : Z
}.

(** [get_summary(db, user)]: the two sums run over the whole table. *)
Definition get_summary (db : Db) (user : UserModel) : Summary :=
  {| total_spent := or_zero (sql_sum (List.map amount (transactions db)));
     total_points := or_zero (sql_sum (List.map points (transactions db))) |}.

End Endpoints.

(** ** Further vocabulary and samples *)

Module Terms.
Import Models Main Watcher Vocabulary.

(** The transaction [tx] with the amount [a]. *)
Definition with_amount (tx : Transaction) (a : Z) : Transaction :=
  {| transaction_date := transaction_date tx;
     description := description tx;
     amount := Some a;
     category := category tx;
     card := card tx;
     multiplier := multiplier tx;
     points := points tx;
     user_id := user_id tx |}.

(** No character of [s] is an underscore. *)
Fixpoint underscore_free (s : string) : bool :=
  match s with
  | EmptyString => true
  | String c s' => negb (Nat.eqb (Str.code c) 95) && underscore_free s'
  end.

(** No character of [s] is a double quote. *)
Fixpoint quote_free (s : string) : bool :=
  match s with
  | EmptyString => true
  | String c s' => negb (Csv.is_quotechar c) && quote_free s'
  end.

(** [(cur + s).split(",")], the pieces of a text between its commas. *)
Fixpoint comma_split_from (cur s : string) : list string :=
  match s with
  | EmptyString => [cur]
  | String c s' =>
      if Csv.is_delimiter c then cur :: comma_split_from EmptyString s'
      else comma_split_from (cur +:+ String c EmptyString) s'
  end.

Definition comma_split (s : string) : list string :=
  comma_split_from EmptyString s.

(** The header line as the prompt of the normalizer spells it. *)
Definition prompt_header : string :=
  "transaction_date, description, amount, category, card".

(** A file the poller finds: in the inbox, with a name that ends in
    .csv, as the pattern of the scan asks. *)
Definition is_inbox_csv (p : Path) : Prop :=
  parent p = INCOMING_DIR /\ Str.endswith ".csv" (name p) = true.

(** The world after a file is put at the path [p]. *)
Definition redrop (w : World) (p : Path) (f : file) : World :=
  set_fs w (<[p := f]> (fs w)).

(** The reply of the model passes the gate on the first line and the
    validation. *)
Definition reply_accepted (normalized : string) : Prop :=
  exists (first : string) (rest : list string),
    Csv.splitlines normalized = first :: rest
    /\ Str.contains "transaction_date" (Str.lower first) = true
    /\ validate_csv normalized = Ok true.

(** Where process_file puts the normalized text and the original. *)
Definition out_path (strftime : Z -> string) (w : World) (p : Path) : Path :=
  joinpath PROCESSED_DIR
    (stem p +:+ "_normalized_" +:+ strftime (clock w) +:+ ".csv").

Definition raw_path (p : Path) : Path :=
  joinpath PROCESSED_DIR ("raw_" +:+ name p).

Definition failed_path (p : Path) : Path :=
  joinpath FAILED_DIR (name p).

(** The line process_file adds to the log for a success. *)
Definition processed_entry (w : World) (p : Path) : LogEntry :=
  {| timestamp := clock w; filename := name p; status := "processed";
     message := EmptyString |}.

(** The world process_file leaves when every step went through: the
    normalized text written, the original moved beside it, the marker
    made, one line logged, one line printed, one request sent. *)
Definition after_success (strftime : Z -> string) (w : World) (p : Path)
    (raw normalized : string) : World :=
  {| fs := <[marker p := TextFile EmptyString]>
             (<[raw_path p := TextFile raw]>
                (delete p
                   (<[out_path strftime w p := TextFile normalized]> (fs w))));
     log := log w ++ [processed_entry w p];
     requests := requests w ++ [prompt raw (card_label p)];
     stdout := stdout w ++ ["✅ Processed: " +:+ name p];
     clock := clock w |}.

(** The requests process_file makes for a file: one when the file reads
    as text, none otherwise. *)
Definition sent_for (p : Path) (f : file) : list string :=
  match f with
  | TextFile raw => [prompt raw (card_label p)]
  | BinaryFile _ => []
  end.

(** Every step goes through for the file content [f]: it reads as text
    and the reply of the model is accepted. *)
Definition goes_through (ollama_chat : string -> result string) (p : Path)
    (f : file) : Prop :=
  exists raw normalized : string,
    f = TextFile raw
    /\ ollama_chat (prompt raw (card_label p)) = Ok normalized
    /\ reply_accepted normalized.

(** The world process_file leaves when a step failed with [e], [sent]
    being the requests made before the failure. *)
Definition after_failure (w : World) (p : Path) (f : file) (e : exn)
    (sent : list string) : World :=
  {| fs := <[failed_path p := f]> (delete p (fs w));
     log := log w ++ [failed_entry w p e];
     requests := requests w ++ sent;
     stdout := stdout w
               ++ ["❌ Failed: " +:+ name p +:+ " — " +:+ str_exn e];
     clock := clock w |}.

End Terms.

Module MoreSamples.
Import Models Main Watcher Samples.

(** The Starbucks row with blanks around its texts. *)
Definition starbucks_padded : Row :=
  row_of "2024-03-01" "  STARBUCKS " "4.50" " Dining" "Amex  ".

(** 2024-03-02, Auto Pay - thank you, 250.00, Payment, Amex *)
Definition auto_pay_row : Row :=
  row_of "2024-03-02" "Auto Pay - thank you" "250.00" "Payment" "Amex".

(** The store after march.csv, with its two Starbucks rows, is uploaded
    into an empty store. *)
Definition store_after_march : Db :=
  commit (table [dining_amex 3])
    [calculate_points starbucks (Some (table [dining_amex 3]));
     calculate_points starbucks_as_restaurants
       (Some (table [dining_amex 3]))].

(** A reply of the model with the canonical header. *)
Definition good_reply : string :=
  "transaction_date,description,amount,category,card"
  +:+ nl +:+ "2024-03-01,STARBUCKS,4.50,Dining,amex" +:+ nl.

Definition chat_good (p : string) : result string := Ok good_reply.

End MoreSamples.

Module ApiSamples.
Import Models Main Accounts Auth Endpoints Samples.

Definition alice : UserModel :=
  {| id := 1; username := "alice"; email := "alice@example.org";
     hashed_password := "hash-of-wonderland"; is_active := true |}.

(** A user whose account is switched off. *)
Definition bob : UserModel :=
  {| id := 2; username := "bob"; email := "bob@example.org";
     hashed_password := "hash-of-builder"; is_active := false |}.

Definition users_table : list UserModel := [alice; bob].

(** A password check that accepts one password for one hash. *)
Definition verify_sample (plain hashed : string) : result bool :=
  Ok (String.eqb plain "wonderland" && String.eqb hashed "hash-of-wonderland").

(** An encoding of payloads that keeps the subject readable, and its
    decoding: the token is "sub=" followed by the subject, and every
    token expires at the time 2800. *)
Definition encode_sample (payload : gmap string claim) : string :=
  match payload !! "sub" with
  | Some (ClaimStr s) => "sub=" +:+ s
  | _ => "sub="
  end.

Definition decode_sample (token : string) : decoded :=
  match Str.strip_prefix "sub=" token with
  | Some s => Payload (<["exp" := ClaimTime 2800]> {[ "sub" := ClaimStr s ]})
  | None => JWTError
  end.

(** Insertion of a row in a list sorted by date, newest first. *)
Fixpoint insert_by_date (t : Transaction) (l : list Transaction)
  : list Transaction :=
  match l with
  | [] => [t]
  | x :: rest =>
      if date_geb (transaction_date t) (transaction_date x)
      then t :: l
      else x :: insert_by_date t rest
  end.

Definition sort_by_date_desc (l : list Transaction) : list Transaction :=
  List.fold_right insert_by_date [] l.

(** A purchase of user 1 on the second of March. *)
Definition bakery : Transaction :=
  {| transaction_date := Date 2024 3 2; description := "BAKERY";
     amount := Some 1250; category := Some "Dining"; card := "Amex";
     multiplier := Some (dining_amex 3); points := Some 36; user_id := 1 |}.

Definition shared_store : Db :=
  {| transactions := [starbucks; starbucks_of_user_2; bakery];
     multipliers := [dining_amex 3] |}.

(** The answer of SQLite: a negative OFFSET counts as 0, a negative LIMIT
    as none. *)
Definition sqlite_window (skip limit : Z) (rows : list Transaction)
  : result (list Transaction) :=
  let rest := skipn (Z.to_nat skip) rows in
  Ok (if limit <? 0 then rest else firstn (Z.to_nat limit) rest).

End ApiSamples.

(** * Properties of calculate_points *)

Module PointsSpec.
Import Models Vocabulary Samples.

Lemma search_from_unfold (prev : option ascii) (w s : string) :
  Re.search_from prev w s
  = Re.match_here prev w s
    || match s with
       | EmptyString => false
       | String c s' => Re.search_from (Some c) w s'
       end.
Proof. destruct s; reflexivity. Qed.

Lemma append_nil (s : string) : EmptyString +:+ s = s.
Proof. reflexivity. Qed.

Lemma append_cons (c : ascii) (s t : string) :
  String c s +:+ t = String c (s +:+ t).
Proof. reflexivity. Qed.

Lemma strip_prefix_app (w post : string) :
  Str.strip_prefix w (w +:+ post) = Some post.
Proof.
  induction w as [|a w IH].
  - reflexivity.
  - rewrite append_cons. simpl. rewrite Ascii.eqb_refl. exact IH.
Qed.

Lemma strip_prefix_Some (w s rest : string) :
  Str.strip_prefix w s = Some rest -> s = w +:+ rest.
Proof.
  revert s. induction w as [|a w IH]; intros s H.
  - rewrite append_nil. simpl in H. congruence.
  - rewrite append_cons. simpl in H.
    destruct s as [|b s]; [discriminate|].
    destruct (Ascii.eqb_spec a b) as [->|]; [|discriminate].
    f_equal. apply IH, H.
Qed.

Lemma head_app_wordlike (w post : string) :
  Re.is_word_opt (Str.head w) = true -> Str.head (w +:+ post) = Str.head w.
Proof. destruct w; [discriminate | reflexivity]. Qed.

(** An occurrence between two non-word neighbours is found. *)
Lemma search_from_complete (w : string) :
  wordlike w ->
  forall (pre : string) (prev : option ascii) (post : string),
    Re.is_word_opt (Re.last_of prev pre) = false ->
    Re.is_word_opt (Str.head post) = false ->
    Re.search_from prev w (pre +:+ w +:+ post) = true.
Proof.
  intros [Hhead Hlast]. induction pre as [|c pre IH]; intros prev post Hp Hq.
  - rewrite append_nil. simpl in Hp.
    rewrite search_from_unfold. apply orb_true_iff. left.
    unfold Re.match_here. rewrite strip_prefix_app.
    rewrite (head_app_wordlike _ _ Hhead). unfold Re.word_boundary.
    rewrite Hp, Hhead, (Hlast prev), Hq. reflexivity.
  - rewrite append_cons. simpl. apply orb_true_iff. right.
    apply IH; assumption.
Qed.

(** What the search finds is such an occurrence. *)
Lemma search_from_sound (w : string) :
  wordlike w ->
  forall (s : string) (prev : option ascii),
    Re.search_from prev w s = true ->
    exists pre post : string,
      s = pre +:+ w +:+ post
      /\ Re.is_word_opt (Re.last_of prev pre) = false
      /\ Re.is_word_opt (Str.head post) = false.
Proof.
  intros [Hhead Hlast].
  assert (Hhere : forall s prev, Re.match_here prev w s = true ->
            exists post, s = w +:+ post
              /\ Re.is_word_opt prev = false
              /\ Re.is_word_opt (Str.head post) = false).
  { intros s prev H. unfold Re.match_here in H.
    destruct (Str.strip_prefix w s) as [rest|] eqn:E; [|discriminate].
    apply strip_prefix_Some in E. subst s.
    rewrite (head_app_wordlike _ _ Hhead) in H.
    unfold Re.word_boundary in H. rewrite Hhead, (Hlast prev) in H.
    apply andb_true_iff in H as [H1 H2].
    exists rest. repeat split.
    - destruct (Re.is_word_opt prev); [discriminate | reflexivity].
    - destruct (Re.is_word_opt (Str.head rest)); [discriminate | reflexivity]. }
  induction s as [|c s IH]; intros prev H;
    rewrite search_from_unfold in H; apply orb_true_iff in H as [H|H].
  - apply Hhere in H as (post & Hs & Hp & Hq). exists EmptyString, post. auto.
  - discriminate.
  - apply Hhere in H as (post & Hs & Hp & Hq). exists EmptyString, post. auto.
  - apply IH in H as (pre & post & -> & Hp & Hq).
    exists (String c pre), post. auto.
Qed.

Lemma search_word_iff (w s : string) :
  wordlike w -> Re.search_word w s = true <-> whole_word w s.
Proof.
  intros Hw. unfold Re.search_word, whole_word. split.
  - apply search_from_sound, Hw.
  - intros (pre & post & -> & Hp & Hq). apply search_from_complete; assumption.
Qed.

Lemma wordlike_AUTO : wordlike "AUTO".
Proof. split; [reflexivity | intros prev; reflexivity]. Qed.

Lemma wordlike_PAY : wordlike "PAY".
Proof. split; [reflexivity | intros prev; reflexivity]. Qed.

(** The test of the code is the rule of the specification. *)
Lemma auto_pay_iff (description : string) :
  auto_pay description = true <-> auto_pay_rule description.
Proof.
  unfold auto_pay, auto_pay_rule. rewrite andb_true_iff.
  rewrite (search_word_iff _ _ wordlike_AUTO).
  rewrite (search_word_iff _ _ wordlike_PAY). reflexivity.
Qed.


(** The rounded amount is a nearest integer. *)
Lemma py_round_nearest (cents : Z) : Z.abs (100 * py_round cents - cents) <= 50.
Proof.
  unfold py_round.
  pose proof (Z.div_mod cents 100 ltac:(lia)) as Hdm.
  pose proof (Z.mod_pos_bound cents 100 ltac:(lia)) as Hb.
  destruct (Z.ltb_spec (cents mod 100) 50); [lia|].
  destruct (Z.ltb_spec 50 (cents mod 100)); [lia|].
  destruct (Z.even (cents / 100)); lia.
Qed.

(** A tie goes to the even neighbour. *)
Lemma py_round_tie (n : Z) :
  py_round (100 * n + 50) = if Z.even n then n else n + 1.
Proof.
  unfold py_round.
  replace ((100 * n + 50) / 100) with n
    by (apply (Z.div_unique _ 100 n 50); lia).
  replace ((100 * n + 50) mod 100) with 50
    by (apply (Z.mod_unique _ 100 n 50); lia).
  reflexivity.
Qed.

Lemma truthy_nonempty (s : string) : s <> EmptyString -> Str.truthy s = true.
Proof. destruct s; [congruence | reflexivity]. Qed.

(** The method touches [multiplier] and [points] only. *)
Lemma calculate_points_frame (tx : Transaction) (db_session : option Db) :
  let tx' := calculate_points tx db_session in
  transaction_date tx' = transaction_date tx
  /\ description tx' = description tx
  /\ amount tx' = amount tx
  /\ category tx' = category tx
  /\ card tx' = card tx
  /\ user_id tx' = user_id tx.
Proof.
  destruct tx as [d desc amt cat crd mul pts uid].
  unfold calculate_points, assign_points; simpl.
  repeat case_match; simpl; repeat split; reflexivity.
Qed.

Lemma calculate_points_frame_key (tx : Transaction) (db_session : option Db) :
  natural_key_eq (calculate_points tx db_session) tx.
Proof.
  destruct (calculate_points_frame tx db_session) as (H1 & H2 & H3 & _ & H5 & _).
  repeat split; assumption.
Qed.

Lemma denominator_pos (e : Z) : 0 < Float.denominator e.
Proof. unfold Float.denominator. apply Z.pow_pos_nonneg; lia. Qed.

(** [round] of a finite float is nearest, ties to even. *)
Lemma round_finite_nearest (m e : Z) :
  nearest_even (Float.round_finite m e) m e.
Proof.
  unfold nearest_even, Float.round_finite, Float.round_ratio.
  pose proof (denominator_pos e) as Hd.
  set (n := Float.numerator m e). set (d := Float.denominator e) in *.
  pose proof (Z.div_mod n d ltac:(lia)) as Hdm.
  pose proof (Z.mod_pos_bound n d Hd) as Hb.
  set (q := n / d) in *. set (r := n mod d) in *.
  destruct (Z.ltb_spec (2 * r) d) as [H1|H1];
    [|destruct (Z.ltb_spec d (2 * r)) as [H2|H2];
      [|destruct (Z.even q) eqn:Ev]].
  - split; [nia|]. intros Ht. exfalso. nia.
  - split; [nia|]. intros Ht. exfalso. nia.
  - split; [nia|]. intros _. exact Ev.
  - split; [nia|]. intros _. rewrite Z.even_add, Ev. reflexivity.
Qed.

(** No other integer is. *)
Lemma nearest_even_unique (r1 r2 m e : Z) :
  nearest_even r1 m e -> nearest_even r2 m e -> r1 = r2.
Proof.
  unfold nearest_even. pose proof (denominator_pos e) as Hd.
  set (n := Float.numerator m e). set (d := Float.denominator e) in *.
  intros [H1 T1] [H2 T2].
  assert (Hc : r1 = r2 \/ r1 = r2 + 1 \/ r2 = r1 + 1) by nia.
  destruct Hc as [Hc | [Hc | Hc]]; [exact Hc | exfalso | exfalso].
  - assert (E1 : 2 * Z.abs (r1 * d - n) = d) by nia.
    assert (E2 : 2 * Z.abs (r2 * d - n) = d) by nia.
    specialize (T1 E1). specialize (T2 E2).
    rewrite Hc, Z.even_add, T2 in T1. discriminate.
  - assert (E1 : 2 * Z.abs (r1 * d - n) = d) by nia.
    assert (E2 : 2 * Z.abs (r2 * d - n) = d) by nia.
    specialize (T1 E1). specialize (T2 E2).
    rewrite Hc, Z.even_add, T1 in T2. discriminate.
Qed.

(** On a float that holds a two-decimal amount, [round] is the rounding
    of the cents. *)
Lemma round_holds (x : Float.t) (cents : Z) :
  holds x cents -> Float.round x = Ok (py_round cents).
Proof.
  destruct x as [| |m e]; simpl; try contradiction.
  intros [Hnear Htie]. f_equal.
  apply (nearest_even_unique _ _ m e); [apply round_finite_nearest|].
  unfold nearest_even, py_round.
  pose proof (denominator_pos e) as Hd.
  set (n := Float.numerator m e) in *.
  set (d := Float.denominator e) in *.
  pose proof (Z.div_mod cents 100 ltac:(lia)) as Hdm.
  pose proof (Z.mod_pos_bound cents 100 ltac:(lia)) as Hb.
  set (q := cents / 100) in *. set (r := cents mod 100) in *.
  destruct (Z.ltb_spec r 50) as [H1|H1];
    [|destruct (Z.ltb_spec 50 r) as [H2|H2];
      [|destruct (Z.even q) eqn:Ev]].
  - assert (r * d <= 49 * d) by nia.
    assert (Hs : 2 * Z.abs (q * d - n) < d) by nia.
    split; [lia|]. intros Ht. lia.
  - assert (51 * d <= r * d) by nia.
    assert (r * d <= 99 * d) by nia.
    assert (Hs : 2 * Z.abs ((q + 1) * d - n) < d) by nia.
    split; [lia|]. intros Ht. lia.
  - assert (Hr : r = 50) by lia. specialize (Htie Hr).
    split; [nia|]. intros _. exact Ev.
  - assert (Hr : r = 50) by lia. specialize (Htie Hr).
    split; [nia|]. intros _. rewrite Z.even_add, Ev. reflexivity.
Qed.


(** The rounded fraction is within a half of the fraction, and is the
    fraction when that is an integer. *)
Lemma round_ratio_nearest (num den : Z) :
  0 < den ->
  2 * Z.abs (Float.round_ratio num den * den - num) <= den
  /\ (num mod den = 0 -> Float.round_ratio num den * den = num).
Proof.
  intros Hd. unfold Float.round_ratio.
  pose proof (Z.div_mod num den ltac:(lia)) as Hdm.
  pose proof (Z.mod_pos_bound num den Hd) as Hb.
  set (q := num / den) in *. set (r := num mod den) in *.
  destruct (Z.ltb_spec (2 * r) den) as [H1|H1];
    [|destruct (Z.ltb_spec den (2 * r)) as [H2|H2];
      [|destruct (Z.even q)]];
    (split; [nia | intros Hz; nia]).
Qed.

(** The float of a two-decimal amount below 2 ^ 53 cents holds the
    amount. *)
Lemma of_cents_holds (cents : Z) :
  Z.abs cents < 2 ^ 53 -> holds (Float.of_cents cents) cents.
Proof.
  intros Hlt. unfold Float.of_cents, holds.
  set (n := Z.abs cents) in *.
  set (k := Z.log2 n - 6).
  set (l := if 100 * 2 ^ Z.max 0 k <=? n * 2 ^ Z.max 0 (- k) then k
            else k - 1).
  set (e := l - 52).
  assert (Hk : k <= 46).
  { unfold k. destruct (Z.eq_dec n 0) as [->|Hn]; [simpl; lia|].
    assert (Z.log2 n < 53) by (apply Z.log2_lt_pow2; lia). lia. }
  assert (He : e <= -6) by (unfold e, l; destruct (_ <=? _); lia).
  unfold Float.numerator, Float.denominator.
  replace (Z.max 0 e) with 0 by lia.
  replace (Z.max 0 (- e)) with (- e) by lia.
  change (2 ^ 0) with 1. rewrite !Z.mul_1_r.
  set (d := 2 ^ (- e)).
  assert (Hd : 64 <= d).
  { unfold d. change 64 with (2 ^ 6). apply Z.pow_le_mono_r; lia. }
  assert (Hd2 : d = 2 * 2 ^ (- e - 1)).
  { unfold d. rewrite <- Z.pow_succ_r by lia. f_equal. lia. }
  destruct (round_ratio_nearest (n * d) 100 ltac:(lia)) as [Hnear Hexact].
  set (M := Float.round_ratio (n * d) 100) in *.
  assert (Hsgn : Z.sgn cents * n = cents).
  { unfold n. destruct cents; simpl; lia. }
  assert (Hs : Z.sgn cents = 1 \/ Z.sgn cents = 0 \/ Z.sgn cents = -1)
    by (destruct cents; simpl; lia).
  split.
  - assert (Hcd : cents * d = Z.sgn cents * (n * d)) by nia.
    rewrite Hcd.
    destruct Hs as [Hs | [Hs | Hs]]; rewrite Hs; nia.
  - intros Hmod.
    assert (Hn : n mod 100 = 50).
    { unfold n. destruct (Z.abs_spec cents) as [[_ ->] | [_ ->]];
        [exact Hmod|].
      pose proof (Z.div_mod cents 100 ltac:(lia)) as Hdm.
      symmetry. apply (Z.mod_unique_pos _ _ (- (cents / 100) - 1)); lia. }
    assert (Hz : (n * d) mod 100 = 0).
    { pose proof (Z.div_mod n 100 ltac:(lia)) as Hdm.
      symmetry.
      apply (Z.mod_unique_pos _ _ ((n / 100) * d + 2 ^ (- e - 1))); nia. }
    specialize (Hexact Hz).
    assert (Hcd : cents * d = Z.sgn cents * (n * d)) by nia.
    rewrite Hcd. nia.
Qed.

(** So [round] of the float of an amount is the rounding of its cents. *)
Lemma round_of_cents (cents : Z) :
  Z.abs cents < 2 ^ 53 ->
  Float.round (Float.of_cents cents) = Ok (py_round cents).
Proof. intros H. apply round_holds, of_cents_holds, H. Qed.

(** It is a float: its mantissa has 53 bits, and no multiple of the unit
    of its exponent is nearer to the amount. *)
Lemma of_cents_mantissa (cents : Z) :
  cents <> 0 -> Z.abs cents < 2 ^ 53 ->
  exists m e : Z,
    Float.of_cents cents = Float.Finite m e
    /\ e <= -6
    /\ 2 ^ 52 <= Z.abs m <= 2 ^ 53
    /\ 2 * Z.abs (100 * m - cents * 2 ^ (- e)) <= 100.
Proof.
  intros Hne Hlt. unfold Float.of_cents.
  set (n := Z.abs cents) in *.
  assert (Hn : 0 < n) by (unfold n; lia).
  pose proof (Z.log2_spec n Hn) as Ha.
  pose proof (Z.log2_nonneg n) as Ha0.
  assert (Ha53 : Z.log2 n < 53) by (apply Z.log2_lt_pow2; lia).
  set (a := Z.log2 n) in *.
  set (k := a - 6).
  set (l := if 100 * 2 ^ Z.max 0 k <=? n * 2 ^ Z.max 0 (- k) then k
            else k - 1).
  set (e := l - 52).
  assert (He : e <= -6) by (unfold e, l, k; destruct (_ <=? _); lia).
  replace (Z.max 0 e) with 0 by lia.
  replace (Z.max 0 (- e)) with (- e) by lia.
  change (2 ^ 0) with 1. rewrite Z.mul_1_r.
  set (d := 2 ^ (- e)).
  assert (Hbin : 2 ^ 52 * 100 <= n * d < 2 ^ 53 * 100).
  { assert (E1 : 2 ^ Z.succ a * 2 ^ (52 - k) = 2 ^ 59).
    { rewrite <- Z.pow_add_r by (unfold k; lia). f_equal. unfold k. lia. }
    assert (E2 : 2 ^ a * 2 ^ (53 - k) = 2 ^ 59).
    { rewrite <- Z.pow_add_r by (unfold k; lia). f_equal. unfold k. lia. }
    assert (P1 : 0 < 2 ^ (52 - k)) by (apply Z.pow_pos_nonneg; unfold k; lia).
    assert (P2 : 0 < 2 ^ (53 - k)) by (apply Z.pow_pos_nonneg; unfold k; lia).
    change (2 ^ 59) with (128 * 2 ^ 52) in E1, E2.
    change (2 ^ 53) with (2 * 2 ^ 52).
    assert (P52 : 0 < 2 ^ 52) by reflexivity.
    unfold d, e, l.
    destruct (Z.leb_spec (100 * 2 ^ Z.max 0 k) (n * 2 ^ Z.max 0 (- k)))
      as [Ht|Ht].
    - replace (- (k - 52)) with (52 - k) by lia.
      split; [|nia].
      destruct (Z.le_gt_cases 0 k) as [Hk|Hk].
      + replace (Z.max 0 k) with k in Ht by lia.
        replace (Z.max 0 (- k)) with 0 in Ht by lia.
        change (2 ^ 0) with 1 in Ht.
        assert (E3 : 2 ^ k * 2 ^ (52 - k) = 2 ^ 52).
        { rewrite <- Z.pow_add_r by (unfold k in *; lia). f_equal. lia. }
        nia.
      + replace (Z.max 0 k) with 0 in Ht by lia.
        replace (Z.max 0 (- k)) with (- k) in Ht by lia.
        change (2 ^ 0) with 1 in Ht.
        assert (E3 : 2 ^ (- k) * 2 ^ 52 = 2 ^ (52 - k)).
        { rewrite <- Z.pow_add_r by lia. f_equal. lia. }
        nia.
    - replace (- (k - 1 - 52)) with (53 - k) by lia.
      split; [nia|].
      destruct (Z.le_gt_cases 0 k) as [Hk|Hk].
      + replace (Z.max 0 k) with k in Ht by lia.
        replace (Z.max 0 (- k)) with 0 in Ht by lia.
        change (2 ^ 0) with 1 in Ht.
        assert (E3 : 2 ^ k * 2 ^ (53 - k) = 2 * 2 ^ 52).
        { rewrite <- Z.pow_add_r by (unfold k in *; lia).
          change (2 * 2 ^ 52) with (2 ^ 53). f_equal. lia. }
        nia.
      + replace (Z.max 0 k) with 0 in Ht by lia.
        replace (Z.max 0 (- k)) with (- k) in Ht by lia.
        change (2 ^ 0) with 1 in Ht.
        assert (E3 : 2 ^ (- k) * (2 * 2 ^ 52) = 2 ^ (53 - k)).
        { change (2 * 2 ^ 52) with (2 ^ 53).
          rewrite <- Z.pow_add_r by lia. f_equal. lia. }
        nia. }
  destruct (round_ratio_nearest (n * d) 100 ltac:(lia)) as [Hnear _].
  set (M := Float.round_ratio (n * d) 100) in *.
  assert (P52 : 2 ^ 52 = 4503599627370496) by reflexivity.
  assert (P53 : 2 ^ 53 = 9007199254740992) by reflexivity.
  assert (HM : 2 ^ 52 <= M <= 2 ^ 53) by lia.
  exists (Z.sgn cents * M), e.
  split; [reflexivity|]. split; [exact He|].
  assert (Hs : (Z.sgn cents = 1 /\ cents = n)
               \/ (Z.sgn cents = -1 /\ cents = - n))
    by (unfold n; destruct cents; simpl; lia).
  destruct Hs as [[Hs Hc] | [Hs Hc]]; rewrite Hs; split; lia.
Qed.

(** Beyond that the float is no longer the amount, and the two roundings
    part: 9007199254740993.00 is the float 2 ^ 53. *)
Lemma round_of_large_amount :
  Float.round (Float.of_cents 900719925474099300) = Ok 9007199254740992
  /\ py_round 900719925474099300 = 9007199254740993.
Proof. split; vm_compute; reflexivity. Qed.

Lemma as_float_in_cents (tx : Transaction) :
  (forall a : Z, amount tx = Some a -> Z.abs a < 2 ^ 53) ->
  in_cents (as_float tx) tx.
Proof.
  intros H. unfold in_cents, as_float. simpl.
  repeat split. destruct (amount tx) as [a|]; simpl; [|exact I].
  apply of_cents_holds, H. reflexivity.
Qed.

(** The method on the float amount and the method on the cents agree on a
    transaction whose float holds its two-decimal amount: the call
    returns, and the objects after the call are again the same
    transaction. *)
Lemma calculate_points_in_cents
    (tx : Exact.Transaction) (tx' : Transaction) (db_session : option Db) :
  in_cents tx tx' ->
  exists tx1 : Exact.Transaction,
    Exact.calculate_points tx db_session = (tx1, Ok tt)
    /\ in_cents tx1 (calculate_points tx' db_session).
Proof.
  destruct tx as [d desc amt cat crd mul pts uid].
  destruct tx' as [d' desc' amt' cat' crd' mul' pts' uid'].
  unfold in_cents. simpl.
  intros (<- & <- & Ha & <- & <- & <- & <- & <-).
  assert (Hassign : forall (mul0 : option Multiplier),
    exists tx1 : Exact.Transaction,
      Exact.assign_points
        {| Exact.transaction_date := d; Exact.description := desc;
           Exact.amount := amt; Exact.category := cat; Exact.card := crd;
           Exact.multiplier := mul0; Exact.points := pts;
           Exact.user_id := uid |} = (tx1, Ok tt)
      /\ in_cents tx1
           (assign_points
              {| transaction_date := d; description := desc;
                 amount := amt'; category := cat; card := crd;
                 multiplier := mul0; points := pts; user_id := uid |})).
  { intros mul0. unfold Exact.assign_points, assign_points. simpl.
    destruct amt as [x|], amt' as [a|]; simpl in Ha; try contradiction.
    - destruct mul0 as [m|].
      + destruct (m_multiplier m =? 0).
        * eexists. split; [reflexivity|]. repeat split. exact Ha.
        * rewrite (round_holds _ _ Ha).
          eexists. split; [reflexivity|]. repeat split. exact Ha.
      + eexists. split; [reflexivity|]. repeat split. exact Ha.
    - eexists. split; [reflexivity|]. repeat split. }
  unfold Exact.calculate_points, calculate_points. simpl.
  destruct (auto_pay desc).
  { eexists. split; [reflexivity|]. repeat split. exact Ha. }
  destruct db_session as [db|]; [|apply Hassign].
  destruct cat as [c|]; [|apply Hassign].
  destruct (Str.truthy c && Str.truthy crd); [|apply Hassign].
  unfold Exact.set_multiplier, set_multiplier. simpl.
  destruct (query_multiplier db c crd) as [row|].
  - apply Hassign.
  - eexists. split; [reflexivity|]. repeat split. exact Ha.
Qed.

(** In particular on the object whose amount is the float of its cents,
    below 2 ^ 53 cents. *)
Lemma calculate_points_of_cents (tx : Transaction) (db_session : option Db) :
  (forall a : Z, amount tx = Some a -> Z.abs a < 2 ^ 53) ->
  exists tx1 : Exact.Transaction,
    Exact.calculate_points (as_float tx) db_session = (tx1, Ok tt)
    /\ in_cents tx1 (calculate_points tx db_session).
Proof.
  intros H. apply calculate_points_in_cents, as_float_in_cents, H.
Qed.





(** C2: when the upper-cased description contains AUTO and PAY as whole
    words, calculate_points sets points to "not applicable", whatever the
    amount, the category, the card and the multiplier table. *)
Theorem auto_pay_not_applicable (tx : Transaction) (db_session : option Db) :
  whole_word "AUTO" (Str.upper (description tx)) ->
  whole_word "PAY" (Str.upper (description tx)) ->
  points (calculate_points tx db_session) = None.
Proof.
  intros Hauto Hpay. unfold calculate_points.
  rewrite (proj2 (auto_pay_iff (description tx)) (conj Hauto Hpay)).
  reflexivity.
Qed.

Lemma auto_pay_not_applicable_witness :
  points (calculate_points auto_pay_thank_you (Some (table [payment_amex 2])))
  = None.
Proof.
  apply auto_pay_not_applicable.
  - exists EmptyString, " PAY - THANK YOU". repeat split; reflexivity.
  - exists "AUTO ", " - THANK YOU". repeat split; reflexivity.
Defined.

(** C3 (amended): on the row 2024-03-02, AUTOPAY THANK YOU, 250.00,
    Payment, Amex the auto-pay exclusion does not apply, AUTOPAY being one
    word; points is 250 * m when the table has a (Payment, Amex) row with
    a non-zero multiplier m, and "not applicable" when no such row exists
    or its multiplier is zero. *)
Theorem autopay_one_word_earns_points (db : Db) :
  auto_pay (description autopay_thank_you) = false
  /\ points (calculate_points autopay_thank_you (Some db))
     = match query_multiplier db "Payment" "Amex" with
       | Some row =>
           if m_multiplier row =? 0 then None
           else Some (250 * m_multiplier row)
       | None => None
       end.
Proof.
  split; [reflexivity|].
  unfold calculate_points.
  change (auto_pay (description autopay_thank_you)) with false.
  cbn [category card autopay_thank_you Str.truthy andb].
  destruct (query_multiplier db "Payment" "Amex") as [row|] eqn:E.
  - unfold assign_points, set_multiplier, set_points; cbn -[Z.mul Z.eqb].
    destruct (m_multiplier row =? 0); reflexivity.
  - reflexivity.
Qed.

(** C3, as stated, fails: with the row (Payment, Amex) -> 2 in the table,
    the points of AUTOPAY THANK YOU are 500, not "not applicable". *)
Lemma autopay_thank_you_counterexample :
  query_multiplier (table [payment_amex 2]) "Payment" "Amex"
  = Some (payment_amex 2)
  /\ points (calculate_points autopay_thank_you
               (Some (table [payment_amex 2]))) = Some 500
  /\ points (calculate_points autopay_thank_you
               (Some (table [payment_amex 2]))) <> None.
Proof. repeat split; try reflexivity; discriminate. Qed.

End PointsSpec.

(** * Properties of upload_csv *)

Module UploadSpec.
Import Models Main Vocabulary Samples.

Lemma date_eqb_eq (a b : date) : date_eqb a b = true <-> a = b.
Proof.
  destruct a as [y1 m1 d1], b as [y2 m2 d2]. unfold date_eqb; simpl.
  rewrite !andb_true_iff, !Z.eqb_eq. split.
  - intros [[-> ->] ->]. reflexivity.
  - intros H. injection H as -> -> ->. auto.
Qed.

Lemma amount_eqb_eq (a b : option Z) : amount_eqb a b = true <-> a = b.
Proof.
  destruct a as [x|], b as [y|]; simpl; try (split; congruence).
  rewrite Z.eqb_eq. split; congruence.
Qed.

(** The duplicate test is the equality of the four key columns. *)
Lemma same_key_iff (tx e : Transaction) :
  same_key tx e = true <-> natural_key_eq e tx.
Proof.
  unfold same_key, natural_key_eq.
  rewrite !andb_true_iff, date_eqb_eq, amount_eqb_eq, !String.eqb_eq.
  tauto.
Qed.

Lemma natural_key_eq_sym (a b : Transaction) :
  natural_key_eq a b -> natural_key_eq b a.
Proof. unfold natural_key_eq. intuition congruence. Qed.

Lemma same_key_congr (tx tx' e e' : Transaction) :
  natural_key_eq tx tx' -> natural_key_eq e e' ->
  same_key tx e = same_key tx' e'.
Proof.
  intros (H1 & H2 & H3 & H4) (H5 & H6 & H7 & H8).
  unfold same_key. rewrite H1, H2, H3, H4, H5, H6, H7, H8. reflexivity.
Qed.

Lemma same_key_calculate_points (tx e : Transaction) (s : option Db) :
  same_key (calculate_points tx s) e = same_key tx e.
Proof.
  apply same_key_congr.
  - apply PointsSpec.calculate_points_frame_key.
  - repeat split.
Qed.

Lemma find_none_all {A : Type} (f : A -> bool) (l : list A) :
  (forall x, In x l -> f x = false) -> List.find f l = None.
Proof.
  induction l as [|a l IH]; intros H; simpl.
  - reflexivity.
  - rewrite (H a (or_introl eq_refl)). apply IH. intros x Hx.
    apply H. right. exact Hx.
Qed.

Lemma find_some_any {A : Type} (f : A -> bool) (l : list A) (x : A) :
  In x l -> f x = true -> exists y, List.find f l = Some y.
Proof.
  induction l as [|a l IH]; intros Hin Hf; simpl.
  - destruct Hin.
  - destruct (f a) eqn:E; [eauto|].
    destruct Hin as [->|Hin]; [congruence | apply IH; assumption].
Qed.

(** With no stored row of the key of [tx], the query finds nothing. *)
Lemma query_transaction_none (db : Db) (tx : Transaction) :
  (forall e, In e (transactions db) -> ~ natural_key_eq e tx) ->
  query_transaction db tx = None.
Proof.
  intros H. apply find_none_all. intros e He.
  destruct (same_key tx e) eqn:E; [|reflexivity].
  exfalso. apply (H e He), same_key_iff, E.
Qed.

(** With a stored row of the key of [tx], the query finds one. *)
Lemma query_transaction_some (db : Db) (tx e : Transaction) :
  In e (transactions db) -> natural_key_eq e tx ->
  exists y, query_transaction db tx = Some y.
Proof.
  intros He Hk. apply (find_some_any _ _ e He), same_key_iff, Hk.
Qed.

Lemma commit_nothing (db : Db) : commit db [] = db.
Proof. destruct db. unfold commit; simpl. rewrite app_nil_r. reflexivity. Qed.

Section Parsers.

Variable date_fromisoformat : string -> result date.
Variable float : string -> result Z.

#[local] Abbreviation new_transaction :=
  (Main.new_transaction date_fromisoformat float).
#[local] Abbreviation step := (Main.step date_fromisoformat float).
#[local] Abbreviation for_rows := (Main.for_rows date_fromisoformat float).
#[local] Abbreviation upload_csv := (Main.upload_csv date_fromisoformat float).

(** The object built from a row: the cells, no multiplier, no points, and
    the user of the request; the same cells for any other user. *)
Lemma new_transaction_inv (row : Row) (uid : Z) (tx : Transaction) :
  new_transaction row uid = Ok tx ->
  multiplier tx = None /\ points tx = None /\ user_id tx = uid
  /\ forall uid', exists tx',
       new_transaction row uid' = Ok tx'
       /\ natural_key_eq tx' tx /\ category tx' = category tx
       /\ user_id tx' = uid'.
Proof.
  unfold Main.new_transaction. intros H.
  destruct (getitem row "transaction_date" ≫= cell_date date_fromisoformat)
    as [d|e]; simpl in H; [|discriminate].
  destruct (getitem row "description" ≫= cell_strip)
    as [desc|e]; simpl in H; [|discriminate].
  destruct (getitem row "amount" ≫= cell_float float)
    as [amt|e]; simpl in H; [|discriminate].
  destruct (getitem row "category" ≫= cell_strip)
    as [cat|e]; simpl in H; [|discriminate].
  destruct (getitem row "card" ≫= cell_strip)
    as [crd|e]; simpl in H; [|discriminate].
  injection H as <-. simpl. repeat split.
  intros uid'. eexists. split; [reflexivity|]. repeat split.
Qed.

(** One row whose key is not in the store: it is added. *)
Lemma step_adds (db : Db) (uid : Z) (st : progress) (row : Row)
    (tx : Transaction) :
  new_transaction row uid = Ok tx ->
  (forall e, In e (transactions db) -> ~ natural_key_eq e tx) ->
  step db uid st row
  = Ok {| added := added st + 1; skipped := skipped st;
          pending := pending st ++ [calculate_points tx (Some db)] |}.
Proof.
  intros Htx Hnone. unfold Main.step. rewrite Htx. simpl.
  rewrite query_transaction_none; [reflexivity|].
  intros e He Hk. apply (Hnone e He).
  destruct Hk as (H1 & H2 & H3 & H4).
  destruct (PointsSpec.calculate_points_frame_key tx (Some db))
    as (K1 & K2 & K3 & K4).
  repeat split; congruence.
Qed.

(** One row whose key is in the store: it is skipped. *)
Lemma step_skips (db : Db) (uid : Z) (st : progress) (row : Row)
    (tx e : Transaction) :
  new_transaction row uid = Ok tx ->
  In e (transactions db) -> natural_key_eq e tx ->
  step db uid st row
  = Ok {| added := added st; skipped := skipped st + 1;
          pending := pending st |}.
Proof.
  intros Htx He Hk. unfold Main.step. rewrite Htx. simpl.
  destruct (query_transaction_some db (calculate_points tx (Some db)) e He)
    as [y ->]; [|reflexivity].
  destruct Hk as (H1 & H2 & H3 & H4).
  destruct (PointsSpec.calculate_points_frame_key tx (Some db))
    as (K1 & K2 & K3 & K4).
  repeat split; congruence.
Qed.

(** The whole loop on one row. *)
Lemma upload_one_row (file_name : string) (row : Row) (db : Db) (uid : Z)
    (st : progress) :
  Str.endswith ".csv" file_name = true ->
  step db uid {| added := 0; skipped := 0; pending := [] |} row = Ok st ->
  upload_csv file_name [row] db uid
  = (Success (added st) (skipped st) file_name, commit db (pending st)).
Proof.
  intros Hcsv Hstep. unfold Main.upload_csv.
  rewrite Hcsv. simpl. rewrite Hstep. reflexivity.
Qed.


(** C5, on the code: two rows of one file that agree on transaction_date,
    description, amount and card, whatever their categories, with no
    stored row of that key, are both added; the second is not skipped. *)
Theorem same_file_duplicates_both_added
    (file_name : string) (row1 row2 : Row) (db : Db) (uid : Z)
    (tx1 tx2 : Transaction) :
  Str.endswith ".csv" file_name = true ->
  new_transaction row1 uid = Ok tx1 ->
  new_transaction row2 uid = Ok tx2 ->
  natural_key_eq tx1 tx2 ->
  (forall e, In e (transactions db) -> ~ natural_key_eq e tx1) ->
  upload_csv file_name [row1; row2] db uid
  = (Success 2 0 file_name,
     commit db [calculate_points tx1 (Some db);
                calculate_points tx2 (Some db)]).
Proof.
  intros Hcsv H1 H2 Hk Hnone.
  assert (Hnone2 : forall e, In e (transactions db) -> ~ natural_key_eq e tx2).
  { intros e He Hk2. apply (Hnone e He).
    destruct Hk as (A1 & A2 & A3 & A4), Hk2 as (B1 & B2 & B3 & B4).
    repeat split; congruence. }
  unfold Main.upload_csv. rewrite Hcsv. simpl.
  rewrite (step_adds db uid _ row1 tx1 H1 Hnone). simpl.
  rewrite (step_adds db uid _ row2 tx2 H2 Hnone2). reflexivity.
Qed.

(** A row that fails to parse raises in new_transaction. *)
Lemma parse_fails_raises (row : Row) (uid : Z) :
  parse_fails date_fromisoformat float row ->
  exists e, new_transaction row uid = Raise e.
Proof.
  intros H. unfold Main.new_transaction, getitem.
  destruct (row !! "transaction_date") as [[sd|]|] eqn:Ed; simpl;
    try (eexists; reflexivity).
  destruct (date_fromisoformat sd) as [d|ed] eqn:Edate; simpl;
    try (eexists; reflexivity).
  destruct (row !! "description") as [[sdesc|]|] eqn:Edesc; simpl;
    try (eexists; reflexivity).
  destruct (row !! "amount") as [[sa|]|] eqn:Ea; simpl;
    try (eexists; reflexivity).
  destruct (float sa) as [a|ea] eqn:Efloat; simpl;
    try (eexists; reflexivity).
  destruct (row !! "category") as [[scat|]|] eqn:Ecat; simpl;
    try (eexists; reflexivity).
  destruct (row !! "card") as [[scard|]|] eqn:Ecard; simpl;
    try (eexists; reflexivity).
  exfalso.
  destruct H as [(k & Hk & Hmiss) | [(s & e & Hs & He) | (s & e & Hs & He)]].
  - unfold CELLS in Hk.
    repeat (apply elem_of_cons in Hk as [->|Hk]);
      [| | | | | apply elem_of_nil in Hk; exact Hk];
      destruct Hmiss; congruence.
  - congruence.
  - congruence.
Qed.

Lemma step_raises (db : Db) (uid : Z) (st : progress) (row : Row) (e : exn) :
  new_transaction row uid = Raise e -> step db uid st row = Raise e.
Proof.
  intros H. unfold Main.step. rewrite H.
  reflexivity.
Qed.

Lemma step_total (db : Db) (uid : Z) (st : progress) (row : Row) :
  (exists e, new_transaction row uid = Raise e /\ step db uid st row = Raise e)
  \/ (exists st', step db uid st row = Ok st').
Proof.
  unfold Main.step.
  destruct (new_transaction row uid) as [tx|e]; simpl.
  - right. destruct (query_transaction db _); eauto.
  - left. eauto.
Qed.

(** The loop raises the exception of a failing row. *)
Lemma for_rows_raises (db : Db) (uid : Z) (rows : list Row) :
  (exists row, In row rows /\ exists e, new_transaction row uid = Raise e) ->
  forall st, exists row e,
    In row rows /\ new_transaction row uid = Raise e
    /\ for_rows db uid st rows = Raise e.
Proof.
  induction rows as [|r rows IH]; intros (row & Hin & e & He) st.
  - destruct Hin.
  - simpl.
    destruct (step_total db uid st r) as [(e' & Hr & Hs) | (st' & Hs)];
      rewrite Hs; simpl.
    + exists r, e'. split; [left; reflexivity | split; [exact Hr | reflexivity]].
    + destruct Hin as [->|Hin].
      * pose proof (step_raises db uid st row e He) as Hc. congruence.
      * destruct (IH (ex_intro _ row (conj Hin (ex_intro _ e He))) st')
          as (row' & e' & Hin' & Hr' & Hf').
        exists row', e'. split; [right; exact Hin' | split; assumption].
Qed.

(** C8: when a row of the file fails to parse (a missing cell, a date or
    an amount the parser rejects), upload_csv answers with the error 400
    "Row parsing failed" carrying the exception of a failing row, and the
    store is unchanged: no row of the file is persisted. *)
Theorem parse_failure_aborts_batch
    (file_name : string) (rows : list Row) (db : Db) (uid : Z) :
  Str.endswith ".csv" file_name = true ->
  (exists row, In row rows /\ parse_fails date_fromisoformat float row) ->
  exists (bad : Row) (e : exn),
    In bad rows
    /\ new_transaction bad uid = Raise e
    /\ upload_csv file_name rows db uid
       = (HTTPException 400 ("Row parsing failed: " +:+ str_exn e), db).
Proof.
  intros Hcsv (row & Hin & Hfail).
  destruct (for_rows_raises db uid rows
              (ex_intro _ row (conj Hin (parse_fails_raises row uid Hfail)))
              {| added := 0; skipped := 0; pending := [] |})
    as (bad & e & Hbad & Hraise & Hloop).
  exists bad, e. split; [exact Hbad|]. split; [exact Hraise|].
  unfold Main.upload_csv. rewrite Hcsv. simpl.
  rewrite Hloop. reflexivity.
Qed.

(** C10: the duplicate test does not look at the owner: when the store
    holds a row of another user with the key of the uploaded row, the
    upload counts the row as skipped and persists nothing for the
    uploading user. *)
Theorem duplicate_check_spans_users
    (file_name : string) (row : Row) (db : Db) (uid : Z)
    (tx other : Transaction) :
  Str.endswith ".csv" file_name = true ->
  new_transaction row uid = Ok tx ->
  In other (transactions db) ->
  user_id other <> uid ->
  natural_key_eq other tx ->
  user_id tx = uid
  /\ upload_csv file_name [row] db uid = (Success 0 1 file_name, db).
Proof.
  intros Hcsv Htx Hin Huser Hk.
  split; [apply (new_transaction_inv row uid tx Htx)|].
  rewrite (upload_one_row file_name row db uid _ Hcsv
             (step_skips db uid _ row tx other Htx Hin Hk)).
  simpl. rewrite commit_nothing. reflexivity.
Qed.

End Parsers.


Lemma same_file_duplicates_both_added_witness :
  upload_csv fromisoformat_sample float_sample "march.csv"
    [starbucks_dining; starbucks_restaurants] (table [dining_amex 3]) 1
  = (Success 2 0 "march.csv",
     commit (table [dining_amex 3])
       [calculate_points starbucks (Some (table [dining_amex 3]));
        calculate_points starbucks_as_restaurants
          (Some (table [dining_amex 3]))]).
Proof.
  apply (same_file_duplicates_both_added fromisoformat_sample float_sample
           "march.csv" starbucks_dining starbucks_restaurants
           (table [dining_amex 3]) 1 starbucks starbucks_as_restaurants).
  - reflexivity.
  - vm_compute. reflexivity.
  - vm_compute. reflexivity.
  - repeat split.
  - intros e He. destruct He.
Defined.

Lemma parse_failure_aborts_batch_witness :
  exists (bad : Row) (e : exn),
    In bad [starbucks_dining; bad_amount]
    /\ new_transaction fromisoformat_sample float_sample bad 1 = Raise e
    /\ upload_csv fromisoformat_sample float_sample "march.csv"
         [starbucks_dining; bad_amount] (table [dining_amex 3]) 1
       = (HTTPException 400 ("Row parsing failed: " +:+ str_exn e),
          table [dining_amex 3]).
Proof.
  apply (parse_failure_aborts_batch fromisoformat_sample float_sample
           "march.csv" [starbucks_dining; bad_amount]
           (table [dining_amex 3]) 1).
  - reflexivity.
  - exists bad_amount. split.
    + right. left. reflexivity.
    + right. right.
      exists "four", (ValueError "could not convert string to float: 'four'").
      split; vm_compute; reflexivity.
Defined.

Lemma duplicate_check_spans_users_witness :
  user_id starbucks = 1
  /\ upload_csv fromisoformat_sample float_sample "march.csv"
       [starbucks_dining] store_of_user_2 1
     = (Success 0 1 "march.csv", store_of_user_2).
Proof.
  apply (duplicate_check_spans_users fromisoformat_sample float_sample
           "march.csv" starbucks_dining store_of_user_2 1
           starbucks starbucks_of_user_2).
  - reflexivity.
  - vm_compute. reflexivity.
  - left. reflexivity.
  - discriminate.
  - repeat split.
Defined.

End UploadSpec.

(** * Properties of validate_csv and process_file *)

Module WatcherSpec.
Import Watcher Vocabulary Samples.

Lemma breakless_snoc (s : string) (c : ascii) :
  breakless s = true -> Csv.is_linebreak c = false ->
  breakless (s +:+ String c EmptyString) = true.
Proof.
  intros Hs Hc. induction s as [|a s IH].
  - change (negb (Csv.is_linebreak c) && true = true). rewrite Hc. reflexivity.
  - change (negb (Csv.is_linebreak a)
            && breakless (s +:+ String c EmptyString) = true).
    simpl in Hs. apply andb_true_iff in Hs as [Ha Hs'].
    rewrite Ha, (IH Hs'). reflexivity.
Qed.

(** The lines of [splitlines] hold no line boundary, so no CR and no LF:
    the reader never sees one inside a line. *)
Lemma splitlines_breakless (s : string) :
  Forall (fun line => breakless line = true) (Csv.splitlines s).
Proof.
  unfold Csv.splitlines.
  assert (H : forall (s cur : string) (after_cr : bool),
             breakless cur = true ->
             Forall (fun line => breakless line = true)
                    (Csv.splitlines_from cur after_cr s)).
  { clear s. induction s as [|c s IH]; intros cur after_cr Hcur; simpl.
    - destruct (Str.truthy cur); [|constructor].
      constructor; [exact Hcur | constructor].
    - destruct (after_cr && Csv.is_lf c) eqn:E1.
      + apply IH. reflexivity.
      + destruct (Csv.is_linebreak c) eqn:E2.
        * constructor; [exact Hcur|]. apply IH. reflexivity.
        * apply IH. apply breakless_snoc; assumption. }
  apply H. reflexivity.
Qed.

Lemma length_snoc (s : string) (c : ascii) :
  String.length (s +:+ String c EmptyString) = S (String.length s).
Proof.
  induction s as [|a s IH]; [reflexivity|].
  rewrite PointsSpec.append_cons. simpl. f_equal. exact IH.
Qed.




(** A field with room takes a character. *)
Lemma parse_add_char_fits (r : Csv.reader) (c : ascii) :
  Z.of_nat (String.length (Csv.field r)) < Csv.field_limit ->
  Csv.parse_add_char r c
  = Ok {| Csv.st := Csv.st r;
          Csv.field := Csv.field r +:+ String c EmptyString;
          Csv.fields := Csv.fields r |}.
Proof.
  intros H. unfold Csv.parse_add_char.
  destruct (Z.leb_spec Csv.field_limit
              (Z.of_nat (String.length (Csv.field r)))); [lia|reflexivity].
Qed.



















Section Process.

Variable ollama_chat : string -> result string.
Variable strftime : Z -> string.

#[local] Abbreviation process_file :=
  (Watcher.process_file ollama_chat strftime).
#[local] Abbreviation process_all :=
  (Watcher.process_all ollama_chat strftime).
#[local] Abbreviation attempt := (Watcher.attempt ollama_chat strftime).

Lemma with_suffix_marker (file_path : Path) :
  name file_path <> EmptyString ->
  with_suffix file_path ".processed" = Ok (marker file_path).
Proof.
  intros H. unfold with_suffix, marker.
  destruct (name file_path); [congruence | reflexivity].
Qed.

(** C6: for a file whose completion marker exists, process_file returns
    at once and the world is the same: no request to the model, no file
    moved or written, no line in the log, nothing printed. *)
Theorem marker_present_no_effect (file_path : Path) (w : World) :
  name file_path <> EmptyString ->
  is_Some (fs w !! marker file_path) ->
  process_file file_path w = (w, Ok tt).
Proof.
  intros Hname Hmark. unfold Watcher.process_file.
  rewrite (with_suffix_marker _ Hname).
  unfold mbind, M_bind, lift, path_exists.
  rewrite (bool_decide_eq_true_2 _ Hmark). reflexivity.
Qed.

(** A failing step: the body of the try raises, having changed no file, no
    log line and no printed line. *)
Lemma attempt_fails (file_path lock_file : Path) (w : World) (f : file)
    (e : exn) :
  fs w !! file_path = Some f ->
  step_fails ollama_chat (card_label file_path) f e ->
  exists w1 : World,
    attempt file_path lock_file (card_label file_path) w = (w1, Raise e)
    /\ fs w1 = fs w /\ log w1 = log w /\ stdout w1 = stdout w
    /\ clock w1 = clock w.
Proof.
  intros Hf Hfail. unfold Watcher.attempt.
  unfold mbind, M_bind, read_text. rewrite Hf.
  destruct Hfail as [why -> | raw e -> Hc | raw nz -> Hc Hl
                    | raw nz first rest -> Hc Hl Hg
                    | raw nz first rest -> Hc Hl Hg Hv
                    | raw nz first rest e -> Hc Hl Hg Hv].
  - eexists. split; [reflexivity|]. auto.
  - unfold normalize_csv_via_ollama. rewrite Hc.
    eexists. split; [reflexivity|]. auto.
  - unfold normalize_csv_via_ollama, lift. rewrite Hc, Hl. simpl.
    eexists. split; [reflexivity|]. auto.
  - unfold normalize_csv_via_ollama, lift. rewrite Hc, Hl. simpl.
    rewrite Hg. simpl. unfold raise.
    eexists. split; [reflexivity|]. auto.
  - unfold normalize_csv_via_ollama, lift. rewrite Hc, Hl. simpl.
    rewrite Hg, Hv. simpl. unfold raise.
    eexists. split; [reflexivity|]. auto.
  - unfold normalize_csv_via_ollama, lift. rewrite Hc, Hl. simpl.
    rewrite Hg, Hv. simpl.
    eexists. split; [reflexivity|]. auto.
Qed.

(** The handler on a file that is still in place. *)
Lemma on_failure_moves_and_logs (file_path : Path) (w : World) (f : file)
    (e : exn) :
  fs w !! file_path = Some f ->
  exists w2 : World,
    on_failure file_path e w = (w2, Ok tt)
    /\ fs w2 = <[joinpath FAILED_DIR (name file_path) := f]>
                 (delete file_path (fs w))
    /\ log w2 = log w ++ [failed_entry w file_path e].
Proof.
  intros Hf. unfold on_failure, mbind, M_bind, move. rewrite Hf. simpl.
  eexists. split; [reflexivity|]. split; reflexivity.
Qed.

(** C7: for an inbox file without a completion marker, when a step of the
    processing fails (reading the file, the call of the model, the gate on
    the first line, the validation), process_file returns without raising;
    the file, unchanged, is in the failed archive under its name and no
    longer in the inbox; the log has one more line, of status "failed",
    with the message of the failure; there is still no completion marker;
    and the loop over the files of the scan goes on with the next file. *)
Theorem failure_is_archived_and_logged
    (file_path : Path) (w : World) (f : file) (e : exn) (rest : list Path) :
  parent file_path = INCOMING_DIR ->
  name file_path <> EmptyString ->
  fs w !! file_path = Some f ->
  fs w !! marker file_path = None ->
  step_fails ollama_chat (card_label file_path) f e ->
  exists w' : World,
    process_file file_path w = (w', Ok tt)
    /\ fs w' !! joinpath FAILED_DIR (name file_path) = Some f
    /\ fs w' !! file_path = None
    /\ (forall p : Path,
          p <> file_path -> p <> joinpath FAILED_DIR (name file_path) ->
          fs w' !! p = fs w !! p)
    /\ log w' = log w ++ [failed_entry w file_path e]
    /\ fs w' !! marker file_path = None
    /\ process_all (file_path :: rest) w = process_all rest w'.
Proof.
  intros Hdir Hname Hf Hmark Hfail.
  destruct (attempt_fails file_path (marker file_path) w f e Hf Hfail)
    as (w1 & Hatt & Hfs1 & Hlog1 & Hout1 & Hclk1).
  assert (Hf1 : fs w1 !! file_path = Some f) by (rewrite Hfs1; exact Hf).
  destruct (on_failure_moves_and_logs file_path w1 f e Hf1)
    as (w2 & Hfail2 & Hfs2 & Hlog2).
  assert (Hrun : process_file file_path w = (w2, Ok tt)).
  { unfold Watcher.process_file.
    rewrite (with_suffix_marker _ Hname).
    unfold mbind at 1 2. unfold M_bind at 1 2. unfold lift, path_exists.
    rewrite bool_decide_eq_false_2
      by (rewrite Hmark; intros [x Hx]; discriminate).
    unfold try_except. fold (card_label file_path).
    rewrite Hatt. exact Hfail2. }
  assert (Hne : joinpath FAILED_DIR (name file_path) <> file_path).
  { destruct file_path as [d n]. simpl in *. unfold joinpath. subst d.
    intros Heq. injection Heq as Heq. vm_compute in Heq. discriminate. }
  assert (Hnm : joinpath FAILED_DIR (name file_path) <> marker file_path).
  { unfold marker, joinpath. rewrite Hdir.
    intros Heq. injection Heq as Heq _. vm_compute in Heq. discriminate. }
  exists w2. split; [exact Hrun|]. rewrite Hfs2, Hfs1.
  split; [apply lookup_insert_eq|].
  split; [rewrite lookup_insert_ne by exact Hne; apply lookup_delete_eq|].
  split.
  { intros p Hp1 Hp2. rewrite lookup_insert_ne by congruence.
    apply lookup_delete_ne. congruence. }
  split.
  { rewrite Hlog2, Hlog1. unfold failed_entry. rewrite Hclk1. reflexivity. }
  split.
  { rewrite lookup_insert_ne by exact Hnm.
    destruct (decide (file_path = marker file_path)) as [Heq|Hneq].
    - rewrite <- Heq. apply lookup_delete_eq.
    - rewrite lookup_delete_ne by exact Hneq. exact Hmark. }
  simpl.
  unfold mbind at 1. unfold M_bind at 1. rewrite Hrun. reflexivity.
Qed.

End Process.

Lemma marker_present_no_effect_witness :
  process_file chat_prose stamp amex_march world_marked
  = (world_marked, Ok tt).
Proof.
  apply (marker_present_no_effect chat_prose stamp amex_march world_marked).
  - discriminate.
  - exists (TextFile EmptyString). vm_compute. reflexivity.
Defined.

Lemma failure_is_archived_and_logged_witness :
  exists w' : World,
    process_file chat_prose stamp amex_march world_unmarked = (w', Ok tt)
    /\ fs w' !! joinpath FAILED_DIR (name amex_march)
       = Some (TextFile "Date,Desc,Amt")
    /\ fs w' !! amex_march = None
    /\ (forall p : Path,
          p <> amex_march -> p <> joinpath FAILED_DIR (name amex_march) ->
          fs w' !! p = fs world_unmarked !! p)
    /\ log w'
       = log world_unmarked
         ++ [failed_entry world_unmarked amex_march
               (ValueError "Ollama response missing headers")]
    /\ fs w' !! marker amex_march = None
    /\ process_all chat_prose stamp [amex_march] world_unmarked
       = process_all chat_prose stamp [] w'.
Proof.
  apply (failure_is_archived_and_logged chat_prose stamp amex_march
           world_unmarked (TextFile "Date,Desc,Amt")
           (ValueError "Ollama response missing headers") []).
  - reflexivity.
  - discriminate.
  - vm_compute. reflexivity.
  - vm_compute. reflexivity.
  - apply (gate_fails chat_prose _ _ "Date,Desc,Amt"
             "Sure! Here is your CSV" "Sure! Here is your CSV" []);
      reflexivity.
Defined.

End WatcherSpec.

(** * Further properties of calculate_points *)

Module PointsExtra.
Import Models Vocabulary Samples Terms.

(** calculate_points changes at most the multiplier and the points of the
    transaction: date, description, amount, category, card and owner are
    those of the argument. *)
Theorem calculate_points_touches_points_only
    (tx : Transaction) (db_session : option Db) :
  transaction_date (calculate_points tx db_session) = transaction_date tx
  /\ description (calculate_points tx db_session) = description tx
  /\ amount (calculate_points tx db_session) = amount tx
  /\ category (calculate_points tx db_session) = category tx
  /\ card (calculate_points tx db_session) = card tx
  /\ user_id (calculate_points tx db_session) = user_id tx.
Proof. exact (PointsSpec.calculate_points_frame tx db_session). Qed.

(** Computing the points again on the result, with the same table, changes
    nothing. *)
Theorem calculate_points_idempotent
    (tx : Transaction) (db_session : option Db) :
  calculate_points (calculate_points tx db_session) db_session
  = calculate_points tx db_session.
Proof.
  destruct tx as [d desc amt cat crd mul pts uid].
  unfold calculate_points; simpl.
  destruct (auto_pay desc) eqn:Eauto; simpl.
  { rewrite Eauto. reflexivity. }
  destruct db_session as [db|]; simpl.
  - destruct cat as [c|]; simpl.
    + destruct (Str.truthy c && Str.truthy crd) eqn:Et; simpl.
      * destruct (query_multiplier db c crd) as [row|] eqn:Eq; simpl.
        -- unfold assign_points; simpl. destruct amt as [a|]; simpl.
           ++ destruct (m_multiplier row =? 0) eqn:Em; simpl;
                rewrite Eauto, Et; simpl; rewrite Eq; simpl;
                unfold assign_points; simpl; rewrite Em; reflexivity.
           ++ rewrite Eauto, Et; simpl. rewrite Eq. reflexivity.
        -- rewrite Eauto, Et; simpl. rewrite Eq. reflexivity.
      * unfold assign_points; simpl.
        destruct amt as [a|], mul as [m|]; simpl;
          try (rewrite Eauto, Et; reflexivity).
        destruct (m_multiplier m =? 0) eqn:Em; simpl;
          rewrite Eauto, Et; simpl; unfold assign_points; simpl;
          rewrite ?Em; reflexivity.
    + unfold assign_points; simpl.
      destruct amt as [a|], mul as [m|]; simpl;
        try (rewrite Eauto; reflexivity).
      destruct (m_multiplier m =? 0) eqn:Em; simpl;
        rewrite Eauto; simpl; unfold assign_points; simpl;
        rewrite ?Em; reflexivity.
  - unfold assign_points; simpl.
    destruct amt as [a|], mul as [m|]; simpl;
      try (rewrite Eauto; reflexivity).
    destruct (m_multiplier m =? 0) eqn:Em; simpl;
      rewrite Eauto; simpl; unfold assign_points; simpl;
      rewrite ?Em; reflexivity.
Qed.

Lemma upper_char_upper (c : ascii) :
  Str.upper_char (Str.upper_char c) = Str.upper_char c.
Proof. destruct c as [[] [] [] [] [] [] [] []]; reflexivity. Qed.

Lemma upper_char_lower (c : ascii) :
  Str.upper_char (Str.lower_char c) = Str.upper_char c.
Proof. destruct c as [[] [] [] [] [] [] [] []]; reflexivity. Qed.

Lemma upper_upper (s : string) : Str.upper (Str.upper s) = Str.upper s.
Proof.
  unfold Str.upper. induction s as [|c s IH]; simpl.
  - reflexivity.
  - rewrite upper_char_upper, IH. reflexivity.
Qed.

Lemma upper_lower (s : string) : Str.upper (Str.lower s) = Str.upper s.
Proof.
  unfold Str.upper, Str.lower. induction s as [|c s IH]; simpl.
  - reflexivity.
  - rewrite upper_char_lower, IH. reflexivity.
Qed.

(** On a description of ASCII characters, where [upper] and [lower] are
    the case mappings of Python, the auto-pay test does not depend on the
    case of the description. *)
Theorem auto_pay_case_insensitive (description : string) :
  Str.isascii description = true ->
  auto_pay (Str.upper description) = auto_pay description
  /\ auto_pay (Str.lower description) = auto_pay description.
Proof.
  intros _. unfold auto_pay. rewrite upper_upper, upper_lower.
  split; reflexivity.
Qed.

Lemma auto_pay_case_insensitive_witness :
  auto_pay (Str.upper "Auto Pay - thank you") = auto_pay "Auto Pay - thank you"
  /\ auto_pay (Str.lower "Auto Pay - thank you")
     = auto_pay "Auto Pay - thank you".
Proof. apply auto_pay_case_insensitive. reflexivity. Defined.

Lemma py_round_opp (cents : Z) : py_round (- cents) = - py_round cents.
Proof.
  unfold py_round.
  pose proof (Z.div_mod cents 100 ltac:(lia)) as Hdm.
  pose proof (Z.mod_pos_bound cents 100 ltac:(lia)) as Hb.
  set (q := cents / 100) in *. set (r := cents mod 100) in *.
  destruct (Z.eq_dec r 0) as [Hr|Hr].
  - assert (Hq : (- cents) / 100 = - q)
      by (symmetry; apply (Z.div_unique _ 100 (- q) 0); lia).
    assert (Hm : (- cents) mod 100 = 0)
      by (symmetry; apply (Z.mod_unique _ 100 (- q) 0); lia).
    rewrite Hq, Hm, Hr. reflexivity.
  - assert (Hq : (- cents) / 100 = - q - 1)
      by (symmetry; apply (Z.div_unique _ 100 (- q - 1) (100 - r)); lia).
    assert (Hm : (- cents) mod 100 = 100 - r)
      by (symmetry; apply (Z.mod_unique _ 100 (- q - 1) (100 - r)); lia).
    rewrite Hq, Hm.
    destruct (Z.ltb_spec r 50), (Z.ltb_spec 50 r),
             (Z.ltb_spec (100 - r) 50), (Z.ltb_spec 50 (100 - r)); try lia.
    replace (- q - 1) with (- Z.succ q) by lia.
    rewrite Z.even_opp, Z.even_succ, <- Z.negb_even.
    destruct (Z.even q); simpl; lia.
Qed.

(** A refund earns back what the purchase earned: on a transaction whose
    points are not yet set, the points for the amount -a are the opposite
    of the points for the amount a. *)
Theorem refund_points_opposite
    (tx : Transaction) (a : Z) (db_session : option Db) :
  points tx = None ->
  points (calculate_points (with_amount tx (- a)) db_session)
  = Z.opp <$> points (calculate_points (with_amount tx a) db_session).
Proof.
  intros Hpts. destruct tx as [d desc amt cat crd mul pts uid].
  simpl in Hpts. subst pts.
  unfold with_amount, calculate_points, assign_points; simpl.
  repeat case_match; simpl; try reflexivity; simplify_eq.
  all: rewrite py_round_opp; f_equal; lia.
Qed.

Lemma refund_points_opposite_witness :
  points (calculate_points (with_amount starbucks (- 450))
            (Some (table [dining_amex 3])))
  = Z.opp <$> points (calculate_points (with_amount starbucks 450)
                        (Some (table [dining_amex 3]))).
Proof.
  apply (refund_points_opposite starbucks 450 (Some (table [dining_amex 3]))).
  reflexivity.
Defined.

(** round(x) of a finite float x is the one integer nearest to x, the
    even one of two equally near, and round of nan or of an infinity
    raises. *)
Theorem round_is_half_to_even (x : Float.t) :
  match x with
  | Float.Finite m e =>
      exists r : Z,
        Float.round x = Ok r
        /\ nearest_even r m e
        /\ forall r' : Z, nearest_even r' m e -> r' = r
  | Float.NaN =>
      Float.round x = Raise (ValueError "cannot convert float NaN to integer")
  | Float.Infinity _ =>
      Float.round x
      = Raise (OverflowError "cannot convert float infinity to integer")
  end.
Proof.
  destruct x as [| negative | m e]; try reflexivity.
  exists (Float.round_finite m e).
  split; [reflexivity|].
  split; [apply PointsSpec.round_finite_nearest|].
  intros r' Hr'.
  exact (PointsSpec.nearest_even_unique _ _ m e Hr'
           (PointsSpec.round_finite_nearest m e)).
Qed.

End PointsExtra.

(** * Further properties of upload_csv *)

Module UploadExtra.
Import Models Main Vocabulary Samples Terms MoreSamples.

Section Parsers.

Variable date_fromisoformat : string -> result date.
Variable float : string -> result Z.

#[local] Abbreviation new_transaction :=
  (Main.new_transaction date_fromisoformat float).
#[local] Abbreviation step := (Main.step date_fromisoformat float).
#[local] Abbreviation for_rows := (Main.for_rows date_fromisoformat float).
#[local] Abbreviation upload_csv := (Main.upload_csv date_fromisoformat float).

(** What one turn of the loop does to the counters and the session. *)
Lemma step_inv (db : Db) (uid : Z) (st st' : progress) (row : Row) :
  step db uid st row = Ok st' ->
  exists tx : Transaction,
    new_transaction row uid = Ok tx
    /\ ((added st' = added st + 1 /\ skipped st' = skipped st
         /\ pending st' = pending st ++ [calculate_points tx (Some db)]
         /\ forall e, In e (transactions db) -> ~ natural_key_eq e tx)
        \/ (added st' = added st /\ skipped st' = skipped st + 1
            /\ pending st' = pending st
            /\ exists e, In e (transactions db) /\ natural_key_eq e tx)).
Proof.
  unfold Main.step. intros H.
  destruct (new_transaction row uid) as [tx|e] eqn:Etx; simpl in H;
    [|discriminate].
  exists tx. split; [reflexivity|].
  destruct (query_transaction db (calculate_points tx (Some db)))
    as [found|] eqn:Eq; injection H as <-; simpl.
  - right. repeat split.
    unfold query_transaction in Eq. apply List.find_some in Eq as [Hin Hk].
    exists found. split; [exact Hin|].
    apply UploadSpec.same_key_iff in Hk.
    destruct Hk as (H1 & H2 & H3 & H4).
    destruct (PointsSpec.calculate_points_frame_key tx (Some db))
      as (K1 & K2 & K3 & K4).
    repeat split; congruence.
  - left. repeat split.
    intros e He Hk. unfold query_transaction in Eq.
    pose proof (List.find_none _ _ Eq e He) as Hf.
    assert (Ht : same_key (calculate_points tx (Some db)) e = true).
    { apply UploadSpec.same_key_iff.
      destruct Hk as (H1 & H2 & H3 & H4).
      destruct (PointsSpec.calculate_points_frame_key tx (Some db))
        as (K1 & K2 & K3 & K4).
      repeat split; congruence. }
    congruence.
Qed.

(** The state of the loop after all the rows. *)
Lemma for_rows_inv (db : Db) (uid : Z) (rows : list Row) :
  forall st st' : progress,
    for_rows db uid st rows = Ok st' ->
    added st' + skipped st' = added st + skipped st + Z.of_nat (length rows)
    /\ added st <= added st' /\ skipped st <= skipped st'
    /\ exists new : list Transaction,
         pending st' = pending st ++ new
         /\ Z.of_nat (length new) = added st' - added st
         /\ Forall (fun t =>
              exists row tx,
                In row rows /\ new_transaction row uid = Ok tx
                /\ t = calculate_points tx (Some db)
                /\ forall e, In e (transactions db) -> ~ natural_key_eq e tx)
              new
         /\ Forall (fun row =>
              exists tx e,
                new_transaction row uid = Ok tx
                /\ In e (transactions db ++ new) /\ natural_key_eq e tx)
              rows.
Proof.
  induction rows as [|row rows IH]; intros st st' H; simpl in H.
  - injection H as <-. simpl. repeat split; try lia.
    exists []. rewrite app_nil_r. split; [reflexivity|].
    split; [simpl; lia|]. split; constructor.
  - destruct (step db uid st row) as [st1|e] eqn:Es; simpl in H;
      [|discriminate].
    destruct (IH st1 st' H) as (Hsum & Ha & Hk & new & Hp & Hl & Hnew & Hall).
    destruct (step_inv db uid st st1 row Es) as (tx & Htx & Hcase).
    destruct Hcase as [(A1 & A2 & A3 & A4) | (A1 & A2 & A3 & e & He & Hke)].
    + split; [simpl length; lia|]. split; [lia|]. split; [lia|].
      exists (calculate_points tx (Some db) :: new).
      split; [rewrite Hp, A3, <- app_assoc; reflexivity|].
      split; [simpl length; lia|].
      split.
      * constructor.
        -- exists row, tx. split; [left; reflexivity|]. auto.
        -- eapply Forall_impl; [exact Hnew|].
           intros t (r & tx' & Hin & Hr). exists r, tx'.
           split; [right; exact Hin | exact Hr].
      * constructor.
        -- exists tx, (calculate_points tx (Some db)).
           split; [exact Htx|]. split.
           ++ apply in_or_app. right. left. reflexivity.
           ++ apply PointsSpec.calculate_points_frame_key.
        -- eapply Forall_impl; [exact Hall|].
           intros r (tx' & e & Hr & Hin & Hke). exists tx', e.
           split; [exact Hr|]. split; [|exact Hke].
           apply in_app_or in Hin as [Hin|Hin]; apply in_or_app;
             [left; exact Hin | right; right; exact Hin].
    + split; [simpl length; lia|]. split; [lia|]. split; [lia|].
      exists new.
      split; [rewrite Hp, A3; reflexivity|].
      split; [lia|].
      split.
      * eapply Forall_impl; [exact Hnew|].
        intros t (r & tx' & Hin & Hr). exists r, tx'.
        split; [right; exact Hin | exact Hr].
      * constructor; [|exact Hall].
        exists tx, e. split; [exact Htx|]. split; [|exact Hke].
        apply in_or_app. left. exact He.
Qed.

Lemma upload_success_inv (file_name : string) (rows : list Row) (db db' : Db)
    (uid a k : Z) (f : string) :
  upload_csv file_name rows db uid = (Success a k f, db') ->
  exists st' : progress,
    for_rows db uid {| added := 0; skipped := 0; pending := [] |} rows
    = Ok st'
    /\ a = added st' /\ k = skipped st' /\ f = file_name
    /\ db' = commit db (pending st').
Proof.
  unfold Main.upload_csv. intros H.
  destruct (negb (Str.endswith ".csv" file_name)); [discriminate|].
  destruct (for_rows db uid _ rows) as [st'|e]; [|discriminate].
  injection H as <- <- <- <-. exists st'. repeat split.
Qed.

(** A successful upload accounts for every row of the file: each row is
    either added or skipped, the counters are not negative, the store
    keeps the rows it had, in their order, followed by as many new rows as
    were added, and the multiplier table is untouched. *)
Theorem upload_accounts_for_every_row
    (file_name : string) (rows : list Row) (db db' : Db) (uid a k : Z)
    (f : string) :
  upload_csv file_name rows db uid = (Success a k f, db') ->
  f = file_name
  /\ a + k = Z.of_nat (length rows)
  /\ 0 <= a /\ 0 <= k
  /\ multipliers db' = multipliers db
  /\ exists new : list Transaction,
       transactions db' = transactions db ++ new
       /\ Z.of_nat (length new) = a.
Proof.
  intros H.
  destruct (upload_success_inv _ _ _ _ _ _ _ _ H)
    as (st' & Hloop & -> & -> & -> & ->).
  destruct (for_rows_inv db uid rows _ _ Hloop)
    as (Hsum & Ha & Hk & new & Hp & Hl & _ & _).
  simpl in *. repeat split; try lia.
  exists new. rewrite Hp. split; [reflexivity | lia].
Qed.

(** The rows a successful upload persists are those of the uploading user,
    each the candidate built from a row of the file with its points
    computed, and none has the key of a row the store already had. *)
Theorem uploaded_rows_are_owned_and_new
    (file_name : string) (rows : list Row) (db db' : Db) (uid a k : Z)
    (f : string) :
  upload_csv file_name rows db uid = (Success a k f, db') ->
  exists new : list Transaction,
    transactions db' = transactions db ++ new
    /\ Forall (fun t =>
         user_id t = uid
         /\ (forall e, In e (transactions db) -> ~ natural_key_eq e t)
         /\ exists row tx,
              In row rows /\ new_transaction row uid = Ok tx
              /\ t = calculate_points tx (Some db))
         new.
Proof.
  intros H.
  destruct (upload_success_inv _ _ _ _ _ _ _ _ H)
    as (st' & Hloop & -> & -> & -> & ->).
  destruct (for_rows_inv db uid rows _ _ Hloop)
    as (_ & _ & _ & new & Hp & _ & Hnew & _).
  simpl in Hp. exists new. split; [simpl; rewrite Hp; reflexivity|].
  eapply Forall_impl; [exact Hnew|].
  intros t (row & tx & Hin & Htx & -> & Hnone).
  destruct (PointsSpec.calculate_points_frame tx (Some db))
    as (F1 & F2 & F3 & F4 & F5 & F6).
  split.
  - rewrite F6.
    apply (UploadSpec.new_transaction_inv date_fromisoformat float
             row uid tx Htx).
  - split; [|exists row, tx; auto].
    intros e He (K1 & K2 & K3 & K4). apply (Hnone e He).
    repeat split; congruence.
Qed.

(** When every row has a stored row of its key, all are skipped. *)
Lemma for_rows_all_skip (db : Db) (uid : Z) (rows : list Row) :
  Forall (fun row =>
    exists tx e,
      new_transaction row uid = Ok tx
      /\ In e (transactions db) /\ natural_key_eq e tx) rows ->
  forall st : progress,
    for_rows db uid st rows
    = Ok {| added := added st;
            skipped := skipped st + Z.of_nat (length rows);
            pending := pending st |}.
Proof.
  induction rows as [|row rows IH]; intros Hall st.
  - simpl. destruct st as [a k p]; simpl. do 2 f_equal. lia.
  - apply Forall_cons in Hall as [(tx & e & Htx & He & Hk) Hall].
    simpl for_rows.
    rewrite (UploadSpec.step_skips date_fromisoformat float
               db uid st row tx e Htx He Hk).
    unfold mbind, result_bind. rewrite (IH Hall).
    cbn [added skipped pending].
    change (length (row :: rows)) with (S (length rows)).
    rewrite Nat2Z.inj_succ. do 2 f_equal. lia.
Qed.

(** Uploading again the rows of a successful upload, under any file name
    ending in .csv and as any user, adds nothing: every row is skipped and
    the store stays as the first upload left it. *)
Theorem reupload_adds_nothing
    (file1 file2 : string) (rows : list Row) (db db' : Db)
    (uid1 uid2 a k : Z) (f : string) :
  Str.endswith ".csv" file2 = true ->
  upload_csv file1 rows db uid1 = (Success a k f, db') ->
  upload_csv file2 rows db' uid2
  = (Success 0 (Z.of_nat (length rows)) file2, db').
Proof.
  intros Hcsv H.
  destruct (upload_success_inv _ _ _ _ _ _ _ _ H)
    as (st' & Hloop & -> & -> & -> & ->).
  destruct (for_rows_inv db uid1 rows _ _ Hloop)
    as (_ & _ & _ & new & Hp & _ & _ & Hall).
  simpl in Hp. subst new.
  assert (Hall2 : Forall (fun row =>
            exists tx e,
              new_transaction row uid2 = Ok tx
              /\ In e (transactions (commit db (pending st')))
              /\ natural_key_eq e tx) rows).
  { eapply Forall_impl; [exact Hall|].
    intros row (tx & e & Htx & He & Hk).
    destruct (UploadSpec.new_transaction_inv date_fromisoformat float
                row uid1 tx Htx) as (_ & _ & _ & Hany).
    destruct (Hany uid2) as (tx2 & Htx2 & (K1 & K2 & K3 & K4) & _).
    exists tx2, e. split; [exact Htx2|]. split; [exact He|].
    destruct Hk as (E1 & E2 & E3 & E4). repeat split; congruence. }
  unfold Main.upload_csv. rewrite Hcsv. simpl negb. cbv iota.
  rewrite (for_rows_all_skip _ uid2 rows Hall2). simpl.
  rewrite UploadSpec.commit_nothing. reflexivity.
Qed.

Lemma rstrip_cons_nonspace (c : ascii) (s : string) :
  Str.is_space c = false ->
  Str.rstrip (String c s) = String c (Str.rstrip s).
Proof.
  intros Hc. simpl. destruct (Str.rstrip s); [rewrite Hc|]; reflexivity.
Qed.

Lemma rstrip_idempotent (s : string) :
  Str.rstrip (Str.rstrip s) = Str.rstrip s.
Proof.
  induction s as [|c s IH]; [reflexivity|].
  simpl. destruct (Str.rstrip s) as [|d t] eqn:E.
  - destruct (Str.is_space c) eqn:Ec; [reflexivity|].
    simpl. rewrite Ec. reflexivity.
  - change (Str.rstrip (String c (String d t))) with
      (match Str.rstrip (String d t) with
       | EmptyString =>
           if Str.is_space c then EmptyString else String c EmptyString
       | r => String c r
       end).
    rewrite IH. reflexivity.
Qed.

Lemma lstrip_head (s : string) :
  Str.lstrip s = EmptyString
  \/ exists c r, Str.lstrip s = String c r /\ Str.is_space c = false.
Proof.
  induction s as [|c s IH]; simpl; [left; reflexivity|].
  destruct (Str.is_space c) eqn:Ec; [exact IH|].
  right. exists c, s. auto.
Qed.

(** Stripping twice is stripping once: a stripped text has no white space
    at either end. *)
Lemma strip_idempotent (s : string) : Str.strip (Str.strip s) = Str.strip s.
Proof.
  unfold Str.strip.
  destruct (lstrip_head s) as [E | (c & r & E & Hc)]; rewrite E.
  - reflexivity.
  - rewrite (rstrip_cons_nonspace c r Hc). simpl Str.lstrip. rewrite Hc.
    rewrite <- (rstrip_cons_nonspace c r Hc). apply rstrip_idempotent.
Qed.

(** The texts of a candidate are trimmed: the description, the category
    and the card upload_csv compares and stores have no white space at
    either end, whatever the cells held. *)
Theorem parsed_text_is_trimmed (row : Row) (uid : Z) (tx : Transaction) :
  new_transaction row uid = Ok tx ->
  Str.strip (description tx) = description tx
  /\ Str.strip (card tx) = card tx
  /\ exists c, category tx = Some c /\ Str.strip c = c.
Proof.
  unfold Main.new_transaction, getitem. intros H.
  destruct (row !! "transaction_date") as [[sd|]|]; simpl in H;
    try discriminate.
  destruct (date_fromisoformat sd) as [d|]; simpl in H; [|discriminate].
  destruct (row !! "description") as [[sdesc|]|]; simpl in H;
    try discriminate.
  destruct (row !! "amount") as [[sa|]|]; simpl in H; try discriminate.
  destruct (float sa) as [a|]; simpl in H; [|discriminate].
  destruct (row !! "category") as [[scat|]|]; simpl in H; try discriminate.
  destruct (row !! "card") as [[scard|]|]; simpl in H; try discriminate.
  injection H as <-. simpl.
  split; [apply strip_idempotent|]. split; [apply strip_idempotent|].
  exists (Str.strip scat). split; [reflexivity | apply strip_idempotent].
Qed.

(** Rows that parse carry the loop on. *)
Lemma for_rows_app_ok (db : Db) (uid : Z) (good : list Row) :
  Forall (fun row => exists tx, new_transaction row uid = Ok tx) good ->
  forall (st : progress) (rest : list Row),
    exists st' : progress,
      for_rows db uid st (good ++ rest) = for_rows db uid st' rest.
Proof.
  induction good as [|row good IH]; intros Hall st rest.
  - exists st. reflexivity.
  - apply Forall_cons in Hall as [[tx Htx] Hall].
    destruct (UploadSpec.step_total date_fromisoformat float db uid st row)
      as [(e & Hr & _) | (st1 & Hs)]; [congruence|].
    destruct (IH Hall st1 rest) as [st' Hst'].
    exists st'. simpl. rewrite Hs. exact Hst'.
Qed.

(** The error reported is that of the first row that fails: when the rows
    before it all parse, the response carries the exception of that row,
    whatever comes after it, and the store is unchanged. *)
Theorem first_failure_is_reported
    (file_name : string) (good : list Row) (bad : Row) (rest : list Row)
    (db : Db) (uid : Z) (e : exn) :
  Str.endswith ".csv" file_name = true ->
  Forall (fun row => exists tx, new_transaction row uid = Ok tx) good ->
  new_transaction bad uid = Raise e ->
  upload_csv file_name (good ++ bad :: rest) db uid
  = (HTTPException 400 ("Row parsing failed: " +:+ str_exn e), db).
Proof.
  intros Hcsv Hgood Hbad. unfold Main.upload_csv. rewrite Hcsv. simpl negb.
  cbv iota.
  destruct (for_rows_app_ok db uid good Hgood
              {| added := 0; skipped := 0; pending := [] |} (bad :: rest))
    as [st' ->].
  simpl for_rows.
  rewrite (UploadSpec.step_raises date_fromisoformat float db uid st' bad e
             Hbad).
  reflexivity.
Qed.

(** An auto-pay row is still persisted: a row whose description falls under
    the auto-pay exclusion and whose key is not in the store is added,
    with its points "not applicable". *)
Theorem auto_pay_row_is_persisted_without_points
    (file_name : string) (row : Row) (db : Db) (uid : Z) (tx : Transaction) :
  Str.endswith ".csv" file_name = true ->
  new_transaction row uid = Ok tx ->
  auto_pay_rule (description tx) ->
  (forall e, In e (transactions db) -> ~ natural_key_eq e tx) ->
  exists t : Transaction,
    upload_csv file_name [row] db uid
    = (Success 1 0 file_name, commit db [t])
    /\ points t = None
    /\ natural_key_eq t tx.
Proof.
  intros Hcsv Htx Hrule Hnone.
  exists (calculate_points tx (Some db)).
  split.
  { rewrite (UploadSpec.upload_one_row date_fromisoformat float
               file_name row db uid _ Hcsv
               (UploadSpec.step_adds date_fromisoformat float
                  db uid _ row tx Htx Hnone)).
    reflexivity. }
  split; [|apply PointsSpec.calculate_points_frame_key].
  unfold calculate_points.
  rewrite (proj2 (PointsSpec.auto_pay_iff (description tx)) Hrule).
  reflexivity.
Qed.

End Parsers.



Lemma upload_accounts_for_every_row_witness :
  "march.csv" = "march.csv"
  /\ 2 + 0 = Z.of_nat (length [starbucks_dining; starbucks_restaurants])
  /\ 0 <= 2 /\ 0 <= 0
  /\ multipliers
       (commit (table [dining_amex 3])
          [calculate_points starbucks (Some (table [dining_amex 3]));
           calculate_points starbucks_as_restaurants
             (Some (table [dining_amex 3]))])
     = multipliers (table [dining_amex 3])
  /\ exists new : list Transaction,
       transactions
         (commit (table [dining_amex 3])
            [calculate_points starbucks (Some (table [dining_amex 3]));
             calculate_points starbucks_as_restaurants
               (Some (table [dining_amex 3]))])
       = transactions (table [dining_amex 3]) ++ new
       /\ Z.of_nat (length new) = 2.
Proof.
  apply (upload_accounts_for_every_row fromisoformat_sample float_sample
           "march.csv" [starbucks_dining; starbucks_restaurants]
           (table [dining_amex 3]) _ 1 2 0 "march.csv").
  vm_compute. reflexivity.
Defined.

Lemma uploaded_rows_are_owned_and_new_witness :
  exists new : list Transaction,
    transactions store_after_march
    = transactions (table [dining_amex 3]) ++ new
    /\ Forall (fun t =>
         user_id t = 1
         /\ (forall e, In e (transactions (table [dining_amex 3])) ->
             ~ natural_key_eq e t)
         /\ exists row tx,
              In row [starbucks_dining; starbucks_restaurants]
              /\ new_transaction fromisoformat_sample float_sample row 1
                 = Ok tx
              /\ t = calculate_points tx (Some (table [dining_amex 3])))
         new.
Proof.
  apply (uploaded_rows_are_owned_and_new fromisoformat_sample float_sample
           "march.csv" [starbucks_dining; starbucks_restaurants]
           (table [dining_amex 3]) store_after_march 1 2 0 "march.csv").
  vm_compute. reflexivity.
Defined.

Lemma reupload_adds_nothing_witness :
  upload_csv fromisoformat_sample float_sample "march_again.csv"
    [starbucks_dining; starbucks_restaurants] store_after_march 2
  = (Success 0
       (Z.of_nat (length [starbucks_dining; starbucks_restaurants]))
       "march_again.csv",
     store_after_march).
Proof.
  apply (reupload_adds_nothing fromisoformat_sample float_sample
           "march.csv" "march_again.csv"
           [starbucks_dining; starbucks_restaurants]
           (table [dining_amex 3]) store_after_march 1 2 2 0 "march.csv").
  - reflexivity.
  - vm_compute. reflexivity.
Defined.

Lemma parsed_text_is_trimmed_witness :
  Str.strip (description starbucks) = description starbucks
  /\ Str.strip (card starbucks) = card starbucks
  /\ exists c, category starbucks = Some c /\ Str.strip c = c.
Proof.
  apply (parsed_text_is_trimmed fromisoformat_sample float_sample
           starbucks_padded 1 starbucks).
  vm_compute. reflexivity.
Defined.

Lemma first_failure_is_reported_witness :
  upload_csv fromisoformat_sample float_sample "march.csv"
    ([starbucks_dining] ++ bad_amount :: [starbucks_restaurants])
    (table [dining_amex 3]) 1
  = (HTTPException 400
       ("Row parsing failed: "
        +:+ str_exn (ValueError "could not convert string to float: 'four'")),
     table [dining_amex 3]).
Proof.
  apply (first_failure_is_reported fromisoformat_sample float_sample
           "march.csv" [starbucks_dining] bad_amount [starbucks_restaurants]
           (table [dining_amex 3]) 1).
  - reflexivity.
  - constructor; [|constructor]. exists starbucks. vm_compute. reflexivity.
  - vm_compute. reflexivity.
Defined.

Lemma auto_pay_row_is_persisted_without_points_witness :
  exists t : Transaction,
    upload_csv fromisoformat_sample float_sample "march.csv"
      [auto_pay_row] (table [payment_amex 2]) 1
    = (Success 1 0 "march.csv", commit (table [payment_amex 2]) [t])
    /\ points t = None
    /\ natural_key_eq t auto_pay_thank_you.
Proof.
  apply (auto_pay_row_is_persisted_without_points fromisoformat_sample
           float_sample "march.csv" auto_pay_row (table [payment_amex 2]) 1
           auto_pay_thank_you).
  - reflexivity.
  - vm_compute. reflexivity.
  - apply PointsSpec.auto_pay_iff. vm_compute. reflexivity.
  - intros e He. destruct He.
Defined.

End UploadExtra.

(** * Properties of the identity functions and of the reading endpoints *)

Module ApiSpec.
Import Models Main Accounts Auth Endpoints Vocabulary Samples ApiSamples.

Lemma query_user_some (users : list UserModel) (name : string)
    (u : UserModel) :
  query_user users name = Some u -> In u users /\ username u = name.
Proof.
  unfold query_user. intros H. apply List.find_some in H as [Hin Heq].
  apply String.eqb_eq in Heq. auto.
Qed.

Section Identity.

Variable verify : string -> string -> result bool.
Variable jwt_encode : gmap string claim -> string.
Variable jwt_decode : string -> decoded.

(** authenticate_user returns a user exactly when the first user of that
    name exists and the password verifies against the hash of that user;
    for a name no user has, it returns None without the password being
    verified at all, so whatever verify would do. *)
Theorem authenticate_user_sound_and_complete
    (users : list UserModel) (name password : string) (u : UserModel) :
  (authenticate_user verify users name password = Ok (Some u)
   <-> query_user users name = Some u
       /\ verify password (hashed_password u) = Ok true)
  /\ (query_user users name = None ->
      authenticate_user verify users name password = Ok None).
Proof.
  unfold authenticate_user, verify_password. split.
  - destruct (query_user users name) as [user|] eqn:Eq.
    + destruct (verify password (hashed_password user)) as [[|]|e] eqn:Ev;
        simpl; split.
      * intros H. injection H as ->. auto.
      * intros [H _]. congruence.
      * discriminate.
      * intros [H1 H2]. injection H1 as ->. congruence.
      * discriminate.
      * intros [H1 H2]. injection H1 as ->. congruence.
    + split; [discriminate | intros [H _]; discriminate].
  - intros ->. reflexivity.
Qed.

(** get_current_user returns a user exactly when the token decodes to a
    payload whose "sub" is a non-empty text and that user is the first one
    of that name; whether the account is active plays no part.  In every
    other case it ends with the 401 "Invalid authentication credentials",
    or with the exception of the decoder when that is not a JWTError. *)
Theorem get_current_user_characterised
    (token : string) (users : list UserModel) (u : UserModel) :
  (get_current_user jwt_decode token users = Return u
   <-> exists (payload : gmap string claim) (s : string),
         jwt_decode token = Payload payload
         /\ payload !! "sub" = Some (ClaimStr s)
         /\ s <> EmptyString
         /\ query_user users s = Some u)
  /\ ((exists v, get_current_user jwt_decode token users = Return v)
      \/ get_current_user jwt_decode token users
         = HTTPError 401 "Invalid authentication credentials"
      \/ exists e, jwt_decode token = DecodeRaises e
           /\ get_current_user jwt_decode token users = Uncaught e).
Proof.
  unfold get_current_user, credentials_exception. split.
  - split.
    + intros H. destruct (jwt_decode token) as [payload| |e];
        try discriminate.
      destruct (payload !! "sub") as [[s|t]|] eqn:Es; simpl in H.
      * destruct (Str.truthy s) eqn:Et; simpl in H; [|discriminate].
        destruct (query_user users s) as [user|] eqn:Eq; [|discriminate].
        injection H as ->. exists payload, s. repeat split; auto.
        intros ->. discriminate.
      * destruct (negb (t =? 0)); discriminate.
      * discriminate.
    + intros (payload & s & -> & Hs & Hne & Hq). rewrite Hs. simpl.
      rewrite (PointsSpec.truthy_nonempty s Hne). simpl. rewrite Hq.
      reflexivity.
  - destruct (jwt_decode token) as [payload| |e]; [|auto|eauto].
    destruct (payload !! "sub") as [[s|t]|]; simpl.
    + destruct (Str.truthy s); simpl; [|auto].
      destruct (query_user users s); eauto.
    + destruct (negb (t =? 0)); auto.
    + auto.
Qed.

(** A token made by create_access_token for the name of a user
    authenticates as that user, provided the decoder gives back the
    payload that was encoded: the claim "exp" the function adds does not
    displace the subject. *)
Theorem issued_token_authenticates
    (utcnow expires_delta : Z) (data : gmap string claim)
    (users : list UserModel) (u : UserModel) :
  data !! "sub" = Some (ClaimStr (username u)) ->
  username u <> EmptyString ->
  query_user users (username u) = Some u ->
  jwt_decode (jwt_encode (<["exp" := ClaimTime (utcnow + expires_delta)]> data))
  = Payload (<["exp" := ClaimTime (utcnow + expires_delta)]> data) ->
  get_current_user jwt_decode
    (create_access_token jwt_encode utcnow data expires_delta) users
  = Return u.
Proof.
  intros Hsub Hne Hq Hrt.
  unfold get_current_user, create_access_token. rewrite Hrt.
  rewrite lookup_insert_ne by discriminate. rewrite Hsub. simpl.
  rewrite (PointsSpec.truthy_nonempty _ Hne). simpl. rewrite Hq.
  reflexivity.
Qed.

End Identity.

Lemma authenticate_user_sound_and_complete_witness :
  (authenticate_user verify_sample users_table "alice" "wonderland"
   = Ok (Some alice)
   <-> query_user users_table "alice" = Some alice
       /\ verify_sample "wonderland" (hashed_password alice) = Ok true)
  /\ (query_user users_table "alice" = None ->
      authenticate_user verify_sample users_table "alice" "wonderland"
      = Ok None).
Proof.
  apply (authenticate_user_sound_and_complete verify_sample users_table
           "alice" "wonderland" alice).
Defined.

Lemma get_current_user_characterised_witness :
  (get_current_user decode_sample "sub=bob" users_table = Return bob
   <-> exists (payload : gmap string claim) (s : string),
         decode_sample "sub=bob" = Payload payload
         /\ payload !! "sub" = Some (ClaimStr s)
         /\ s <> EmptyString
         /\ query_user users_table s = Some bob)
  /\ ((exists v, get_current_user decode_sample "sub=bob" users_table
                 = Return v)
      \/ get_current_user decode_sample "sub=bob" users_table
         = HTTPError 401 "Invalid authentication credentials"
      \/ exists e, decode_sample "sub=bob" = DecodeRaises e
           /\ get_current_user decode_sample "sub=bob" users_table
              = Uncaught e).
Proof.
  apply (get_current_user_characterised decode_sample "sub=bob"
           users_table bob).
Defined.

Lemma issued_token_authenticates_witness :
  get_current_user decode_sample
    (create_access_token encode_sample 1000
       {[ "sub" := ClaimStr "alice" ]} 1800) users_table
  = Return alice.
Proof.
  apply (issued_token_authenticates encode_sample decode_sample
           1000 1800 {[ "sub" := ClaimStr "alice" ]} users_table alice).
  - vm_compute. reflexivity.
  - discriminate.
  - vm_compute. reflexivity.
  - vm_compute. reflexivity.
Defined.

Lemma or_zero_Some (x : Z) : or_zero (Some x) = x.
Proof.
  unfold or_zero. destruct (Z.eqb_spec x 0) as [->|]; reflexivity.
Qed.

Lemma or_zero_sql_sum_cons (v : option Z) (rest : list (option Z)) :
  or_zero (sql_sum (v :: rest)) = default 0 v + or_zero (sql_sum rest).
Proof.
  simpl sql_sum. destruct v as [x|], (sql_sum rest) as [s|]; simpl default.
  - rewrite !or_zero_Some. reflexivity.
  - rewrite or_zero_Some. simpl. lia.
  - lia.
  - reflexivity.
Qed.

Lemma or_zero_sql_sum_app (a b : list (option Z)) :
  or_zero (sql_sum (a ++ b)) = or_zero (sql_sum a) + or_zero (sql_sum b).
Proof.
  induction a as [|v a IH].
  - simpl. reflexivity.
  - change ((v :: a) ++ b) with (v :: (a ++ b)).
    rewrite !or_zero_sql_sum_cons, IH. lia.
Qed.

(** The summary is the same for every caller and counts the rows of every
    user: a row added to the store, whoever owns it, raises total_spent by
    its amount and total_points by its points, a row without points
    raising total_points by nothing. *)
Theorem summary_counts_every_user
    (db : Db) (caller other : UserModel) (tx : Transaction) :
  get_summary db caller = get_summary db other
  /\ total_spent (get_summary (commit db [tx]) caller)
     = total_spent (get_summary db caller) + default 0 (amount tx)
  /\ total_points (get_summary (commit db [tx]) caller)
     = total_points (get_summary db caller) + default 0 (points tx).
Proof.
  split; [reflexivity|].
  unfold get_summary, commit; simpl.
  rewrite !List.map_app, !or_zero_sql_sum_app. simpl List.map.
  rewrite !or_zero_sql_sum_cons. simpl sql_sum. simpl or_zero.
  split; lia.
Qed.

Lemma dates_descend_app (a b : list Transaction) :
  dates_descend (a ++ b) -> dates_descend a /\ dates_descend b.
Proof.
  induction a as [|x a IH]; simpl.
  - auto.
  - intros [Hx Hrest]. apply Forall_app in Hx as [Hxa Hxb].
    destruct (IH Hrest) as [Ha Hb]. auto.
Qed.

Section Reading.

Variable order_by_date_desc : list Transaction -> list Transaction.
Variable negative_window :
  Z -> Z -> list Transaction -> result (list Transaction).

(** For a skip and a limit that are not negative, when the store answers
    the ordered query with rows of the rows asked for, newest first,
    read_transactions returns at most [limit] rows, all of them stored
    rows of the caller, newest first. *)
Theorem read_transactions_scoped_bounded_sorted
    (db : Db) (user : UserModel) (skip limit : Z) :
  0 <= skip -> 0 <= limit ->
  (forall l t, In t (order_by_date_desc l) -> In t l) ->
  (forall l, dates_descend (order_by_date_desc l)) ->
  exists rows : list Transaction,
    read_transactions order_by_date_desc negative_window db user skip limit
    = Ok rows
    /\ Z.of_nat (length rows) <= limit
    /\ Forall (fun t => user_id t = id user /\ In t (transactions db)) rows
    /\ dates_descend rows.
Proof.
  intros Hskip Hlimit Hsub Hsorted. unfold read_transactions.
  set (mine := List.filter (fun t => user_id t =? id user) (transactions db)).
  set (rows := order_by_date_desc mine).
  destruct (Z.ltb_spec skip 0); [lia|].
  destruct (Z.ltb_spec limit 0); [lia|]. simpl orb. cbv iota.
  set (n := Z.to_nat limit). set (k := Z.to_nat skip).
  exists (firstn n (skipn k rows)).
  split; [reflexivity|]. split; [|split].
  - pose proof (List.firstn_le_length n (skipn k rows)). unfold n in *. lia.
  - apply Forall_forall. intros t Ht.
    apply list_elem_of_In in Ht.
    assert (Hin : In t rows).
    { pose proof (List.firstn_skipn n (skipn k rows)) as E1.
      pose proof (List.firstn_skipn k rows) as E2.
      rewrite <- E2. apply in_or_app. right.
      rewrite <- E1. apply in_or_app. left. exact Ht. }
    apply Hsub in Hin. unfold mine in Hin.
    apply List.filter_In in Hin as [Hin Hu].
    apply Z.eqb_eq in Hu. auto.
  - pose proof (Hsorted mine) as Hs. fold rows in Hs.
    rewrite <- (List.firstn_skipn k rows) in Hs.
    apply dates_descend_app in Hs as [_ Hs].
    rewrite <- (List.firstn_skipn n (skipn k rows)) in Hs.
    apply dates_descend_app in Hs as [Hs _]. exact Hs.
Qed.

End Reading.

Lemma date_geb_total (a b : date) : date_geb a b = false -> date_geb b a = true.
Proof.
  destruct a as [y1 m1 d1], b as [y2 m2 d2]. unfold date_geb; simpl.
  intros H.
  destruct (Z.ltb_spec y2 y1), (Z.ltb_spec y1 y2), (Z.eqb_spec y1 y2),
           (Z.eqb_spec y2 y1), (Z.ltb_spec m2 m1), (Z.ltb_spec m1 m2),
           (Z.eqb_spec m1 m2), (Z.eqb_spec m2 m1), (Z.leb_spec d2 d1),
           (Z.leb_spec d1 d2); simpl in *; try discriminate; try reflexivity;
    lia.
Qed.

Lemma date_geb_trans (a b c : date) :
  date_geb a b = true -> date_geb b c = true -> date_geb a c = true.
Proof.
  destruct a as [y1 m1 d1], b as [y2 m2 d2], c as [y3 m3 d3].
  unfold date_geb; simpl. intros H1 H2.
  destruct (Z.ltb_spec y2 y1), (Z.eqb_spec y1 y2), (Z.ltb_spec m2 m1),
           (Z.eqb_spec m1 m2), (Z.leb_spec d2 d1); simpl in H1;
    try discriminate;
  destruct (Z.ltb_spec y3 y2), (Z.eqb_spec y2 y3), (Z.ltb_spec m3 m2),
           (Z.eqb_spec m2 m3), (Z.leb_spec d3 d2); simpl in H2;
    try discriminate;
  destruct (Z.ltb_spec y3 y1), (Z.eqb_spec y1 y3), (Z.ltb_spec m3 m1),
           (Z.eqb_spec m1 m3), (Z.leb_spec d3 d1); simpl;
    try reflexivity; lia.
Qed.

Lemma insert_by_date_In (t x : Transaction) (l : list Transaction) :
  In x (insert_by_date t l) -> x = t \/ In x l.
Proof.
  induction l as [|y l IH]; simpl.
  - intros [<-|[]]. auto.
  - destruct (date_geb (transaction_date t) (transaction_date y)); simpl.
    + intros [<-|[<-|H]]; auto.
    + intros [<-|H]; auto. destruct (IH H); auto.
Qed.

Lemma insert_by_date_sorted (t : Transaction) (l : list Transaction) :
  dates_descend l -> dates_descend (insert_by_date t l).
Proof.
  induction l as [|y l IH]; simpl.
  - intros _. split; [constructor | exact I].
  - intros [Hy Hl].
    destruct (date_geb (transaction_date t) (transaction_date y)) eqn:E;
      simpl.
    + split; [|split; assumption].
      constructor; [exact E|].
      eapply Forall_impl; [exact Hy|].
      intros z Hz. unfold newest_first in *.
      eapply date_geb_trans; eassumption.
    + split; [|apply IH, Hl].
      apply Forall_forall. intros z Hz. apply list_elem_of_In in Hz.
      apply insert_by_date_In in Hz as [->|Hz].
      * apply date_geb_total, E.
      * rewrite Forall_forall in Hy. apply Hy, list_elem_of_In, Hz.
Qed.

Lemma sort_by_date_desc_In (l : list Transaction) (t : Transaction) :
  In t (sort_by_date_desc l) -> In t l.
Proof.
  unfold sort_by_date_desc. induction l as [|x l IH]; simpl; [auto|].
  intros H. apply insert_by_date_In in H as [->|H]; auto.
Qed.

Lemma sort_by_date_desc_sorted (l : list Transaction) :
  dates_descend (sort_by_date_desc l).
Proof.
  unfold sort_by_date_desc. induction l as [|x l IH]; simpl; [exact I|].
  apply insert_by_date_sorted, IH.
Qed.

(** With a negative limit the bound is lost on a store that takes it for
    no limit: the caller gets all of their rows. *)
Lemma read_transactions_negative_limit :
  read_transactions sort_by_date_desc sqlite_window shared_store alice 0 (-1)
  = Ok [bakery; starbucks].
Proof. reflexivity. Qed.

Lemma read_transactions_scoped_bounded_sorted_witness :
  exists rows : list Transaction,
    read_transactions sort_by_date_desc sqlite_window shared_store alice
      0 10 = Ok rows
    /\ Z.of_nat (length rows) <= 10
    /\ Forall (fun t => user_id t = id alice
                        /\ In t (transactions shared_store)) rows
    /\ dates_descend rows.
Proof.
  apply (read_transactions_scoped_bounded_sorted sort_by_date_desc
           sqlite_window shared_store alice 0 10).
  - lia.
  - lia.
  - exact sort_by_date_desc_In.
  - exact sort_by_date_desc_sorted.
Defined.

End ApiSpec.

(** * Further properties of the watcher *)

Module WatcherExtra.
Import Watcher Vocabulary Samples Terms.

Lemma rsplit_dot_app (s a b : string) :
  rsplit_dot s = Some (a, b) -> s = a +:+ b.
Proof.
  revert a b. induction s as [|c s IH]; intros a b H; simpl in H.
  - discriminate.
  - destruct (rsplit_dot s) as [[a' b']|] eqn:E.
    + injection H as <- <-. rewrite PointsSpec.append_cons.
      f_equal. apply IH. reflexivity.
    + destruct (is_dot c); [|discriminate].
      injection H as <- <-. reflexivity.
Qed.

Lemma stem_suffix_append (p : Path) : stem p +:+ suffix p = name p.
Proof.
  unfold stem, suffix.
  destruct (rsplit_dot (name p)) as [[a b]|] eqn:E.
  - destruct (Str.truthy a && negb (String.eqb b ".")).
    + symmetry. apply rsplit_dot_app, E.
    + clear E. induction (name p) as [|c s IH]; [reflexivity|].
      rewrite PointsSpec.append_cons. f_equal. exact IH.
  - clear E. induction (name p) as [|c s IH]; [reflexivity|].
    rewrite PointsSpec.append_cons. f_equal. exact IH.
Qed.

(** A name is its stem followed by its suffix. *)
Theorem stem_suffix_name (p : Path) : stem p +:+ suffix p = name p.
Proof. exact (stem_suffix_append p). Qed.

Lemma rsplit_dot_csv (x : string) :
  rsplit_dot (x +:+ ".csv") = Some (x, ".csv").
Proof.
  induction x as [|c x IH].
  - reflexivity.
  - rewrite PointsSpec.append_cons. simpl. rewrite IH. reflexivity.
Qed.

Lemma stem_of_csv (dir x : string) :
  x <> EmptyString -> stem (dir, x +:+ ".csv") = x.
Proof.
  intros Hx. unfold stem, name; simpl. rewrite rsplit_dot_csv.
  rewrite (PointsSpec.truthy_nonempty x Hx). reflexivity.
Qed.

(** For a file named x.csv with x not empty, the stem is x, the suffix is
    .csv, and the completion marker is x.processed in the same
    directory. *)
Theorem csv_file_marker (dir x : string) :
  x <> EmptyString ->
  stem (dir, x +:+ ".csv") = x
  /\ suffix (dir, x +:+ ".csv") = ".csv"
  /\ with_suffix (dir, x +:+ ".csv") ".processed"
     = Ok (dir, x +:+ ".processed").
Proof.
  intros Hx.
  assert (Hstem : stem (dir, x +:+ ".csv") = x)
    by (apply stem_of_csv, Hx).
  split; [exact Hstem|]. split.
  - unfold suffix, name; simpl. rewrite rsplit_dot_csv.
    rewrite (PointsSpec.truthy_nonempty x Hx). reflexivity.
  - unfold with_suffix. rewrite Hstem. unfold name, parent; simpl.
    destruct x as [|c x]; [congruence|]. reflexivity.
Qed.

Lemma csv_file_marker_witness :
  stem (INCOMING_DIR, "amex_2024" +:+ ".csv") = "amex_2024"
  /\ suffix (INCOMING_DIR, "amex_2024" +:+ ".csv") = ".csv"
  /\ with_suffix (INCOMING_DIR, "amex_2024" +:+ ".csv") ".processed"
     = Ok (INCOMING_DIR, "amex_2024" +:+ ".processed").
Proof. apply (csv_file_marker INCOMING_DIR "amex_2024"). discriminate. Defined.

Lemma before_underscore_app (label rest : string) :
  underscore_free label = true ->
  before_underscore (label +:+ "_" +:+ rest) = label.
Proof.
  intros H. induction label as [|c l IH].
  - reflexivity.
  - rewrite PointsSpec.append_cons. simpl in *.
    apply andb_true_iff in H as [Hc Hl].
    destruct (Nat.eqb (Str.code c) 95); [discriminate|].
    f_equal. apply IH, Hl.
Qed.

(** For a file named label_rest.csv, where label has no underscore, the
    card label sent to the normalizer is label in lower case. *)
Theorem card_label_of_file (dir label rest : string) :
  underscore_free label = true ->
  card_label (dir, label +:+ "_" +:+ rest +:+ ".csv") = Str.lower label.
Proof.
  intros H. unfold card_label.
  assert (Hx : label +:+ "_" +:+ rest <> EmptyString).
  { destruct label; discriminate. }
  replace (label +:+ "_" +:+ rest +:+ ".csv")
    with ((label +:+ "_" +:+ rest) +:+ ".csv").
  - rewrite (stem_of_csv dir _ Hx).
    rewrite (before_underscore_app label rest H). reflexivity.
  - clear. induction label as [|c l IH]; [reflexivity|].
    rewrite !PointsSpec.append_cons. f_equal. exact IH.
Qed.

Lemma card_label_of_file_witness :
  card_label (INCOMING_DIR, "Amex" +:+ "_" +:+ "2024_03" +:+ ".csv")
  = Str.lower "Amex".
Proof.
  apply (card_label_of_file INCOMING_DIR "Amex" "2024_03"). reflexivity.
Defined.

(** On a line without double quotes, short enough for a field, the reader
    cuts at the commas and nowhere else. *)
Lemma parse_line_quote_free (s : string) :
  forall r : Csv.reader,
    quote_free s = true ->
    Z.of_nat (String.length (Csv.field r)) + Z.of_nat (String.length s)
    <= Csv.field_limit ->
    (Csv.st r = Csv.START_FIELD /\ Csv.field r = EmptyString)
    \/ Csv.st r = Csv.IN_FIELD ->
    Csv.parse_line r s
    = Ok {| Csv.st := Csv.START_RECORD; Csv.field := EmptyString;
            Csv.fields :=
              Csv.fields r ++ comma_split_from (Csv.field r) s |}.
Proof.
  induction s as [|c s IH]; intros [state fld flds] Hq Hlen Hst;
    simpl in Hst, Hlen.
  - simpl. unfold Csv.parse_process_char; simpl.
    destruct Hst as [[-> ->] | ->]; reflexivity.
  - simpl in Hq. apply andb_true_iff in Hq as [Hc Hq].
    apply negb_true_iff in Hc.
    simpl Csv.parse_line. simpl comma_split_from.
    unfold Csv.parse_process_char; simpl.
    destruct Hst as [[-> ->] | ->]; simpl.
    + unfold Csv.start_field. rewrite Hc.
      destruct (Csv.is_delimiter c) eqn:Ed.
      * unfold mbind, result_bind.
        rewrite IH; [|exact Hq | simpl; lia | left; split; reflexivity].
        simpl. rewrite <- app_assoc. reflexivity.
      * rewrite WatcherSpec.parse_add_char_fits by (simpl; lia).
        unfold mbind, result_bind.
        rewrite IH;
          [|exact Hq | simpl; rewrite ?WatcherSpec.length_snoc; simpl; lia
           | right; reflexivity].
        reflexivity.
    + destruct (Csv.is_delimiter c) eqn:Ed.
      * unfold mbind, result_bind.
        rewrite IH; [|exact Hq | simpl; lia | left; split; reflexivity].
        simpl. rewrite <- app_assoc. reflexivity.
      * rewrite WatcherSpec.parse_add_char_fits by (simpl; lia).
        unfold mbind, result_bind.
        rewrite IH;
          [|exact Hq | simpl; rewrite ?WatcherSpec.length_snoc; lia
           | right; reflexivity].
        reflexivity.
Qed.

Lemma fieldnames_quote_free (line : string) (rest : list string) :
  line <> EmptyString -> quote_free line = true ->
  Z.of_nat (String.length line) <= Csv.field_limit ->
  Csv.fieldnames (line :: rest) = Ok (Some (comma_split line)).
Proof.
  intros Hne Hq Hlen. destruct line as [|c s]; [congruence|].
  unfold Csv.fieldnames. simpl Csv.read_record.
  change (Csv.parse_process_char Csv.parse_reset (Some c))
    with (Csv.parse_process_char
            (Csv.set_state Csv.parse_reset Csv.START_FIELD) (Some c)).
  change (r' ← Csv.parse_process_char
                 (Csv.set_state Csv.parse_reset Csv.START_FIELD) (Some c);
          Csv.parse_line r' s)
    with (Csv.parse_line (Csv.set_state Csv.parse_reset Csv.START_FIELD)
            (String c s)).
  rewrite parse_line_quote_free;
    [reflexivity | exact Hq | exact Hlen | left; split; reflexivity].
Qed.

(** The header fields validate_csv checks are the pieces of the first line
    between its commas, taken as they are when the line has no double
    quote and no more than the 131072 characters a field of the reader may
    hold: blanks around a name are part of the field.  So validate_csv
    accepts exactly when each canonical name is one of these pieces, and
    it rejects the header line as the prompt spells it, with a blank
    after each comma. *)
Theorem header_fields_are_comma_pieces
    (content line : string) (rest : list string) :
  Csv.splitlines content = line :: rest ->
  line <> EmptyString ->
  quote_free line = true ->
  Z.of_nat (String.length line) <= Csv.field_limit ->
  Csv.fieldnames (Csv.splitlines content) = Ok (Some (comma_split line))
  /\ (validate_csv content = Ok true
      <-> forall h : string, h ∈ STANDARD_HEADERS -> h ∈ comma_split line)
  /\ validate_csv prompt_header = Ok false.
Proof.
  intros Hl Hne Hq Hlen.
  assert (Hf : Csv.fieldnames (Csv.splitlines content)
               = Ok (Some (comma_split line)))
    by (rewrite Hl; apply fieldnames_quote_free; assumption).
  split; [exact Hf|]. split; [|reflexivity].
  unfold validate_csv. rewrite Hf.
  assert (Hsub : (list_to_set STANDARD_HEADERS : gset string)
                   ⊆ list_to_set (comma_split line)
                 <-> forall h : string,
                       h ∈ STANDARD_HEADERS -> h ∈ comma_split line).
  { rewrite elem_of_subseteq. setoid_rewrite elem_of_list_to_set.
    reflexivity. }
  rewrite <- Hsub. split.
  - intros H. injection H as H. apply bool_decide_eq_true in H. exact H.
  - intros H. f_equal. apply bool_decide_eq_true. exact H.
Qed.

Lemma header_fields_are_comma_pieces_witness :
  Csv.fieldnames (Csv.splitlines shuffled_header)
  = Ok (Some (comma_split shuffled_header))
  /\ (validate_csv shuffled_header = Ok true
      <-> forall h : string,
            h ∈ STANDARD_HEADERS -> h ∈ comma_split shuffled_header)
  /\ validate_csv prompt_header = Ok false.
Proof.
  apply (header_fields_are_comma_pieces shuffled_header shuffled_header []).
  - reflexivity.
  - discriminate.
  - reflexivity.
  - vm_compute. discriminate.
Defined.

End WatcherExtra.

(** * The life of a file under the poller *)

Module LifecycleSpec.
Import Watcher Vocabulary Samples Terms MoreSamples.

Lemma length_append (a b : string) :
  String.length (a +:+ b) = (String.length a + String.length b)%nat.
Proof.
  induction a as [|c a IH]; [reflexivity|].
  rewrite PointsSpec.append_cons. simpl. rewrite IH. reflexivity.
Qed.

(** A name that ends in .processed does not end in .csv. *)
Lemma processed_not_csv (x : string) :
  Str.endswith ".csv" (x +:+ ".processed") = false.
Proof.
  induction x as [|c x IH]; [reflexivity|].
  rewrite PointsSpec.append_cons.
  change (Str.endswith ".csv" (String c (x +:+ ".processed")))
    with (if String.eqb ".csv" (String c (x +:+ ".processed")) then true
          else Str.endswith ".csv" (x +:+ ".processed")).
  rewrite IH.
  destruct (String.eqb_spec ".csv" (String c (x +:+ ".processed")))
    as [E|_]; [|reflexivity].
  apply (f_equal String.length) in E. simpl in E.
  rewrite length_append in E. simpl in E. lia.
Qed.

Lemma endswith_nonempty (s : string) :
  Str.endswith ".csv" s = true -> s <> EmptyString.
Proof. intros H ->. discriminate. Qed.

(** The marker of a file is not a file the poller lists. *)
Lemma marker_not_inbox_csv (p q : Path) : is_inbox_csv q -> marker p <> q.
Proof.
  intros [_ Hq] <-. unfold marker, name in Hq; simpl in Hq.
  rewrite processed_not_csv in Hq. discriminate.
Qed.

Lemma dirs_distinct :
  INCOMING_DIR <> PROCESSED_DIR /\ INCOMING_DIR <> FAILED_DIR.
Proof. split; intros H; vm_compute in H; discriminate. Qed.

Section Process.

Variable ollama_chat : string -> result string.
Variable strftime : Z -> string.

#[local] Abbreviation process_file :=
  (Watcher.process_file ollama_chat strftime).
#[local] Abbreviation process_all :=
  (Watcher.process_all ollama_chat strftime).
#[local] Abbreviation attempt := (Watcher.attempt ollama_chat strftime).

(** What process_file does with a file that is present and has no
    marker: every step goes through, or one fails and the handler runs;
    in both cases it returns. *)
Lemma process_file_outcome (p : Path) (w : World) (f : file) :
  parent p = INCOMING_DIR ->
  name p <> EmptyString ->
  fs w !! p = Some f ->
  fs w !! marker p = None ->
  (exists raw normalized : string,
     f = TextFile raw
     /\ ollama_chat (prompt raw (card_label p)) = Ok normalized
     /\ reply_accepted normalized
     /\ process_file p w
        = (after_success strftime w p raw normalized, Ok tt))
  \/ (exists e : exn,
        ~ goes_through ollama_chat p f
        /\ process_file p w = (after_failure w p f e (sent_for p f), Ok tt)).
Proof.
  intros Hdir Hname Hf Hmark.
  assert (Hrun : process_file p w
                 = try_except (attempt p (marker p) (card_label p))
                              (on_failure p) w).
  { unfold Watcher.process_file.
    rewrite (WatcherSpec.with_suffix_marker _ Hname).
    unfold mbind at 1 2. unfold M_bind at 1 2. unfold lift, path_exists.
    rewrite bool_decide_eq_false_2
      by (rewrite Hmark; intros [x Hx]; discriminate).
    reflexivity. }
  assert (Hfail : forall (e : exn) (w1 : World),
            fs w1 = fs w ->
            on_failure p e w1
            = ({| fs := <[failed_path p := f]> (delete p (fs w));
                  log := log w1 ++ [failed_entry w1 p e];
                  requests := requests w1;
                  stdout := stdout w1
                    ++ ["❌ Failed: " +:+ name p +:+ " — " +:+ str_exn e];
                  clock := clock w1 |}, Ok tt)).
  { intros e w1 Hfs. unfold on_failure, mbind, M_bind, move.
    rewrite Hfs, Hf. simpl. rewrite ?Hfs. reflexivity. }
  rewrite Hrun. unfold try_except, Watcher.attempt.
  destruct f as [raw|why].
  2:{ right. exists (UnicodeDecodeError why).
      split; [intros (r & n & E & _); discriminate|].
      unfold mbind, M_bind, read_text. rewrite Hf.
      cbv beta iota. rewrite (Hfail _ w eq_refl). unfold after_failure.
      rewrite app_nil_r. reflexivity. }
  destruct (ollama_chat (prompt raw (card_label p))) as [normalized|e] eqn:Ec.
  2:{ right. exists e.
      split; [intros (r & n & E & Hc & _); injection E as <-; congruence|].
      unfold mbind, M_bind, read_text, normalize_csv_via_ollama.
      rewrite Hf; cbv beta iota; rewrite Ec; cbv beta iota. rewrite Hfail by reflexivity. reflexivity. }
  destruct (Csv.splitlines normalized) as [|first rest] eqn:El.
  { right. exists (IndexError "list index out of range").
    split.
    { intros (r & n & E & Hc & (fl & rl & Hl & _)). injection E as <-.
      congruence. }
    unfold mbind, M_bind, read_text, normalize_csv_via_ollama, lift.
    rewrite Hf; cbv beta iota; rewrite Ec; cbv beta iota; rewrite El;
      simpl first_line.
    cbv beta iota. rewrite Hfail by reflexivity. reflexivity. }
  destruct (Str.contains "transaction_date" (Str.lower first)) eqn:Eg.
  2:{ right. exists (ValueError "Ollama response missing headers").
      split.
      { intros (r & n & E & Hc & (fl & rl & Hl & Hg & _)). injection E as <-.
        congruence. }
      unfold mbind, M_bind, read_text, normalize_csv_via_ollama, lift, raise.
      rewrite Hf; cbv beta iota; rewrite Ec; cbv beta iota; rewrite El;
      simpl first_line; cbv beta iota; rewrite Eg; cbn [negb].
      cbv beta iota. rewrite Hfail by reflexivity. reflexivity. }
  destruct (validate_csv normalized) as [[|]|e] eqn:Ev.
  - left. exists raw, normalized. split; [reflexivity|].
    split; [exact Ec|]. split; [exists first, rest; auto|].
    unfold mbind, M_bind, read_text, normalize_csv_via_ollama, lift.
    rewrite Hf; cbv beta iota; rewrite Ec; cbv beta iota; rewrite El;
      simpl first_line; cbv beta iota; rewrite Eg; cbn [negb].
    cbv iota beta. rewrite Ev. cbv iota beta.
    unfold now, write_text, move, touch, log_event, print, set_fs.
    cbn [fs log requests stdout clock].
    assert (Hp : (<[joinpath PROCESSED_DIR
                      (stem p +:+ "_normalized_" +:+ strftime (clock w)
                       +:+ ".csv") := TextFile normalized]> (fs w)) !! p
                 = Some (TextFile raw)).
    { rewrite lookup_insert_ne; [exact Hf|].
      destruct p as [d n]. unfold joinpath. simpl in Hdir. subst d.
      intros E. injection E as E _. vm_compute in E. discriminate. }
    rewrite Hp.
    cbn [fs log requests stdout clock].
    assert (Hm : (<[joinpath PROCESSED_DIR ("raw_" +:+ name p)
                     := TextFile raw]>
                    (delete p
                       (<[joinpath PROCESSED_DIR
                            (stem p +:+ "_normalized_"
                             +:+ strftime (clock w) +:+ ".csv")
                          := TextFile normalized]> (fs w)))) !! marker p
                 = None).
    { unfold marker. rewrite Hdir.
      rewrite lookup_insert_ne
        by (unfold joinpath; intros E; injection E as E _;
            vm_compute in E; discriminate).
      destruct (decide (p = (INCOMING_DIR, stem p +:+ ".processed")))
        as [E|E].
      - rewrite <- E. apply lookup_delete_eq.
      - rewrite lookup_delete_ne by exact E.
        rewrite lookup_insert_ne
          by (unfold joinpath; intros E'; injection E' as E' _;
              vm_compute in E'; discriminate).
        unfold marker in Hmark. rewrite Hdir in Hmark. exact Hmark. }
    rewrite Hm. reflexivity.
  - right.
    exists (ValueError "Validation failed: CSV headers missing or incorrect").
    split.
    { intros (r & n & E & Hc & (fl & rl & Hl & Hg & Hv)). injection E as <-.
      congruence. }
    unfold mbind, M_bind, read_text, normalize_csv_via_ollama, lift, raise.
    rewrite Hf; cbv beta iota; rewrite Ec; cbv beta iota; rewrite El;
      simpl first_line; cbv beta iota; rewrite Eg; cbn [negb].
    cbv iota beta. rewrite Ev. cbv iota beta.
    cbv beta iota. rewrite Hfail by reflexivity. reflexivity.
  - right. exists e.
    split.
    { intros (r & n & E & Hc & (fl & rl & Hl & Hg & Hv)). injection E as <-.
      congruence. }
    unfold mbind, M_bind, read_text, normalize_csv_via_ollama, lift.
    rewrite Hf; cbv beta iota; rewrite Ec; cbv beta iota; rewrite El;
      simpl first_line; cbv beta iota; rewrite Eg; cbn [negb].
    cbv iota beta. rewrite Ev.
    cbv beta iota. rewrite Hfail by reflexivity. reflexivity.
Qed.

(** A file with its marker is left alone. *)
Lemma process_file_marked (p : Path) (w : World) :
  name p <> EmptyString ->
  is_Some (fs w !! marker p) ->
  process_file p w = (w, Ok tt).
Proof.
  intros Hname Hmark. unfold Watcher.process_file.
  rewrite (WatcherSpec.with_suffix_marker _ Hname).
  unfold mbind, M_bind, lift, path_exists.
  rewrite (bool_decide_eq_true_2 _ Hmark). reflexivity.
Qed.

Lemma endswith_csv_split (s : string) :
  Str.endswith ".csv" s = true -> exists x, s = x +:+ ".csv".
Proof.
  induction s as [|c s IH]; [discriminate|].
  intros H.
  change (Str.endswith ".csv" (String c s))
    with (if String.eqb ".csv" (String c s) then true
          else Str.endswith ".csv" s) in H.
  destruct (String.eqb_spec ".csv" (String c s)) as [E|_].
  - exists EmptyString. rewrite <- E. reflexivity.
  - destruct (IH H) as [x ->]. exists (String c x). reflexivity.
Qed.

(** The stem of a name that ends in .csv is at most four characters
    shorter than the name. *)
Lemma csv_stem_length (p : Path) :
  Str.endswith ".csv" (name p) = true ->
  (String.length (name p) <= String.length (stem p) + 4)%nat.
Proof.
  intros H. rewrite <- (WatcherExtra.stem_suffix_append p) at 1.
  rewrite length_append.
  apply endswith_csv_split in H as [x Hx].
  unfold suffix. rewrite Hx, WatcherExtra.rsplit_dot_csv.
  destruct (Str.truthy x && _); simpl; lia.
Qed.

Lemma out_path_not_raw_path (w : World) (p : Path) :
  Str.endswith ".csv" (name p) = true ->
  out_path strftime w p <> raw_path p.
Proof.
  intros H E. unfold out_path, raw_path, joinpath in E.
  injection E as E. apply (f_equal String.length) in E.
  rewrite !length_append in E. simpl in E.
  pose proof (csv_stem_length p H). lia.
Qed.

Lemma inbox_csv_name (p : Path) : is_inbox_csv p -> name p <> EmptyString.
Proof. intros [_ H]. apply endswith_nonempty, H. Qed.

(** The files of the world after a success. *)
Lemma after_success_files (w : World) (p : Path) (raw normalized : string) :
  is_inbox_csv p ->
  fs (after_success strftime w p raw normalized) !! p = None
  /\ fs (after_success strftime w p raw normalized) !! raw_path p
     = Some (TextFile raw)
  /\ fs (after_success strftime w p raw normalized) !! out_path strftime w p
     = Some (TextFile normalized)
  /\ fs (after_success strftime w p raw normalized) !! marker p
     = Some (TextFile EmptyString)
  /\ (forall q, is_inbox_csv q -> q <> p ->
        fs (after_success strftime w p raw normalized) !! q = fs w !! q)
  /\ (forall q, q <> p -> is_Some (fs w !! q) ->
        is_Some (fs (after_success strftime w p raw normalized) !! q)).
Proof.
  intros Hp. pose proof Hp as [Hdir Hcsv].
  destruct dirs_distinct as [Hd1 Hd2].
  assert (Hmp : marker p <> p) by (apply marker_not_inbox_csv, Hp).
  assert (Hrp : raw_path p <> p).
  { destruct p as [d n]. unfold raw_path, joinpath. simpl in Hdir. subst d.
    intros E. injection E as E _. congruence. }
  assert (Hmr : marker p <> raw_path p).
  { unfold marker, raw_path, joinpath. rewrite Hdir. congruence. }
  assert (Hmo : marker p <> out_path strftime w p).
  { unfold marker, out_path, joinpath. rewrite Hdir. congruence. }
  assert (Hro : raw_path p <> out_path strftime w p).
  { intros E. symmetry in E. exact (out_path_not_raw_path w p Hcsv E). }
  unfold after_success; simpl.
  split.
  { rewrite lookup_insert_ne by exact Hmp.
    rewrite lookup_insert_ne by exact Hrp. apply lookup_delete_eq. }
  split.
  { rewrite lookup_insert_ne by exact Hmr. apply lookup_insert_eq. }
  split.
  { rewrite lookup_insert_ne by exact Hmo.
    rewrite lookup_insert_ne by exact Hro.
    rewrite lookup_delete_ne.
    - apply lookup_insert_eq.
    - destruct p as [d n]. unfold out_path, joinpath. simpl in Hdir. subst d.
      intros E. injection E as E _. congruence. }
  split; [apply lookup_insert_eq|].
  split.
  - intros q Hq Hne. pose proof Hq as [Hqd _].
    rewrite lookup_insert_ne by (apply marker_not_inbox_csv, Hq).
    rewrite lookup_insert_ne
      by (destruct q as [d n]; unfold raw_path, joinpath; simpl in Hqd;
          subst d; intros E; injection E as E _; congruence).
    rewrite lookup_delete_ne by congruence.
    rewrite lookup_insert_ne
      by (destruct q as [d n]; unfold out_path, joinpath; simpl in Hqd;
          subst d; intros E; injection E as E _; congruence).
    reflexivity.
  - intros q Hne Hq.
    rewrite lookup_insert_is_Some. 
    destruct (decide (marker p = q)) as [|N1]; [left; assumption|].
    right. split; [exact N1|].
    rewrite lookup_insert_is_Some.
    destruct (decide (raw_path p = q)) as [|N2]; [left; assumption|].
    right. split; [exact N2|].
    rewrite lookup_delete_ne by congruence.
    rewrite lookup_insert_is_Some.
    destruct (decide (out_path strftime w p = q)) as [|N3];
      [left; assumption | right; auto].
Qed.

(** The files of the world after a failure. *)
Lemma after_failure_files (w : World) (p : Path) (f : file) (e : exn)
    (sent : list string) :
  is_inbox_csv p ->
  fs w !! marker p = None ->
  fs (after_failure w p f e sent) !! p = None
  /\ fs (after_failure w p f e sent) !! failed_path p = Some f
  /\ fs (after_failure w p f e sent) !! marker p = None
  /\ (forall q, is_inbox_csv q -> q <> p ->
        fs (after_failure w p f e sent) !! q = fs w !! q)
  /\ (forall q, q <> p -> is_Some (fs w !! q) ->
        is_Some (fs (after_failure w p f e sent) !! q)).
Proof.
  intros Hp Hmark. pose proof Hp as [Hdir Hcsv].
  destruct dirs_distinct as [Hd1 Hd2].
  assert (Hfp : failed_path p <> p).
  { destruct p as [d n]. unfold failed_path, joinpath. simpl in Hdir.
    subst d. intros E. injection E as E _. congruence. }
  assert (Hfm : failed_path p <> marker p).
  { unfold marker, failed_path, joinpath. rewrite Hdir. congruence. }
  unfold after_failure; simpl.
  split.
  { rewrite lookup_insert_ne by exact Hfp. apply lookup_delete_eq. }
  split; [apply lookup_insert_eq|].
  split.
  { rewrite lookup_insert_ne by exact Hfm.
    rewrite lookup_delete_ne by (apply not_eq_sym, marker_not_inbox_csv, Hp).
    exact Hmark. }
  split.
  - intros q Hq Hne. pose proof Hq as [Hqd _].
    rewrite lookup_insert_ne
      by (destruct q as [d n]; unfold failed_path, joinpath; simpl in Hqd;
          subst d; intros E; injection E as E _; congruence).
    rewrite lookup_delete_ne by congruence. reflexivity.
  - intros q Hne Hq.
    rewrite lookup_insert_is_Some.
    destruct (decide (failed_path p = q)) as [|N1]; [left; assumption|].
    right. split; [exact N1|].
    rewrite lookup_delete_ne by congruence. exact Hq.
Qed.

(** One file of the scan: process_file returns, the file is gone from the
    inbox unless its marker is there, the other files of the inbox are
    untouched, and nothing else disappears. *)
Lemma process_file_step (p : Path) (w : World) :
  is_inbox_csv p ->
  is_Some (fs w !! p) ->
  exists w' : World,
    process_file p w = (w', Ok tt)
    /\ (fs w' !! p = None \/ is_Some (fs w' !! marker p))
    /\ (forall q, is_inbox_csv q -> q <> p -> fs w' !! q = fs w !! q)
    /\ (forall q, q <> p -> is_Some (fs w !! q) -> is_Some (fs w' !! q)).
Proof.
  intros Hp [f Hf]. pose proof Hp as [Hdir Hcsv].
  pose proof (inbox_csv_name p Hp) as Hname.
  destruct (fs w !! marker p) as [m|] eqn:Hmark.
  - exists w. split.
    + apply process_file_marked; [exact Hname | rewrite Hmark; eauto].
    + split; [right; rewrite Hmark; eauto | auto].
  - destruct (process_file_outcome p w f Hdir Hname Hf Hmark)
      as [(raw & nz & -> & _ & _ & Hrun) | (e & _ & Hrun)].
    + destruct (after_success_files w p raw nz Hp)
        as (H1 & _ & _ & _ & H5 & H6).
      eexists. split; [exact Hrun|]. auto.
    + destruct (after_failure_files w p f e (sent_for p f) Hp Hmark)
        as (H1 & _ & _ & H4 & H5).
      eexists. split; [exact Hrun|]. auto.
Qed.

Lemma process_all_inv (files : list Path) :
  forall w : World,
    NoDup files ->
    (forall p, In p files -> is_inbox_csv p /\ is_Some (fs w !! p)) ->
    exists w' : World,
      process_all files w = (w', Ok tt)
      /\ (forall p, In p files ->
            fs w' !! p = None \/ is_Some (fs w' !! marker p))
      /\ (forall q, is_inbox_csv q -> ~ In q files ->
            fs w' !! q = fs w !! q)
      /\ (forall q, ~ In q files -> is_Some (fs w !! q) ->
            is_Some (fs w' !! q)).
Proof.
  induction files as [|p rest IH]; intros w Hnd Hall.
  - exists w. split; [reflexivity|]. split; [intros p []|]. auto.
  - apply NoDup_cons in Hnd as [Hnotin Hnd].
    assert (Hnotin' : ~ In p rest)
      by (intros H; apply Hnotin, list_elem_of_In, H).
    destruct (Hall p (or_introl eq_refl)) as [Hp Hpres].
    destruct (process_file_step p w Hp Hpres)
      as (w1 & Hrun & Hgone & Hsame & Hkeep).
    assert (Hall1 : forall q, In q rest ->
              is_inbox_csv q /\ is_Some (fs w1 !! q)).
    { intros q Hq. destruct (Hall q (or_intror Hq)) as [Hqc Hqs].
      split; [exact Hqc|]. rewrite Hsame; [exact Hqs | exact Hqc |].
      intros ->. contradiction. }
    destruct (IH w1 Hnd Hall1) as (w' & Hrest & Hdone & Hsame' & Hkeep').
    exists w'. split.
    { simpl. unfold mbind at 1. unfold M_bind at 1.
      rewrite Hrun. exact Hrest. }
    split.
    { intros q [<-|Hq]; [|apply Hdone, Hq].
      destruct Hgone as [Hnone|Hm].
      - left. rewrite Hsame' by assumption. exact Hnone.
      - right. apply Hkeep'; [|exact Hm].
        intros Hin. destruct (Hall (marker p) (or_intror Hin)) as [Hc _].
        exact (marker_not_inbox_csv p (marker p) Hc eq_refl). }
    split.
    { intros q Hq Hnot. rewrite Hsame'.
      - apply Hsame; [exact Hq|]. intros ->. apply Hnot. left. reflexivity.
      - exact Hq.
      - intros Hin. apply Hnot. right. exact Hin. }
    intros q Hnot Hq. apply Hkeep'.
    + intros Hin. apply Hnot. right. exact Hin.
    + apply Hkeep; [|exact Hq]. intros ->. apply Hnot. left. reflexivity.
Qed.

(** When the file reads as text and the reply of the model is accepted,
    process_file returns; the original is in the processed archive under
    its name with raw_ in front, the normalized text is beside it, the
    completion marker exists, the file has left the inbox, and the log
    has one more line, of status "processed" with an empty message. *)
Theorem accepted_reply_is_archived
    (p : Path) (w : World) (raw normalized : string) :
  is_inbox_csv p ->
  fs w !! p = Some (TextFile raw) ->
  fs w !! marker p = None ->
  ollama_chat (prompt raw (card_label p)) = Ok normalized ->
  reply_accepted normalized ->
  exists w' : World,
    process_file p w = (w', Ok tt)
    /\ fs w' !! p = None
    /\ fs w' !! raw_path p = Some (TextFile raw)
    /\ fs w' !! out_path strftime w p = Some (TextFile normalized)
    /\ fs w' !! marker p = Some (TextFile EmptyString)
    /\ log w' = log w ++ [processed_entry w p]
    /\ requests w' = requests w ++ [prompt raw (card_label p)].
Proof.
  intros Hp Hf Hmark Hc Hacc. pose proof Hp as [Hdir Hcsv].
  destruct (process_file_outcome p w _ Hdir (inbox_csv_name p Hp) Hf Hmark)
    as [(raw' & nz & E & Hc' & _ & Hrun) | (e & Hno & _)].
  - injection E as <-. rewrite Hc in Hc'. injection Hc' as <-.
    destruct (after_success_files w p raw normalized Hp)
      as (H1 & H2 & H3 & H4 & _).
    eexists. split; [exact Hrun|]. repeat split; assumption.
  - exfalso. apply Hno. exists raw, normalized. auto.
Qed.

(** After a success the same name is never processed again: whatever file
    is put at that path later, process_file finds the marker and leaves
    the world as it is. *)
Theorem processed_name_is_skipped_for_good
    (p : Path) (w : World) (raw normalized : string) :
  is_inbox_csv p ->
  fs w !! p = Some (TextFile raw) ->
  fs w !! marker p = None ->
  ollama_chat (prompt raw (card_label p)) = Ok normalized ->
  reply_accepted normalized ->
  exists w' : World,
    process_file p w = (w', Ok tt)
    /\ forall f2 : file,
         process_file p (redrop w' p f2) = (redrop w' p f2, Ok tt).
Proof.
  intros Hp Hf Hmark Hc Hacc. pose proof Hp as [Hdir Hcsv].
  destruct (process_file_outcome p w _ Hdir (inbox_csv_name p Hp) Hf Hmark)
    as [(raw' & nz & E & Hc' & _ & Hrun) | (e & Hno & _)].
  - injection E as <-. rewrite Hc in Hc'. injection Hc' as <-.
    destruct (after_success_files w p raw normalized Hp)
      as (_ & _ & _ & H4 & _).
    eexists. split; [exact Hrun|]. intros f2.
    apply process_file_marked; [exact (inbox_csv_name p Hp)|].
    unfold redrop, set_fs. cbn [fs].
    rewrite lookup_insert_ne
      by (apply not_eq_sym, marker_not_inbox_csv, Hp).
    rewrite H4. eauto.
  - exfalso. apply Hno. exists raw, normalized. auto.
Qed.

(** After a failure the same name is tried again: no marker was made, so
    when a text file is put at that path later, process_file returns
    having sent its content to the model once more. *)
Theorem failed_name_is_retried
    (p : Path) (w : World) (f : file) :
  is_inbox_csv p ->
  fs w !! p = Some f ->
  fs w !! marker p = None ->
  ~ goes_through ollama_chat p f ->
  exists w' : World,
    process_file p w = (w', Ok tt)
    /\ fs w' !! marker p = None
    /\ forall raw2 : string,
         exists w'' : World,
           process_file p (redrop w' p (TextFile raw2)) = (w'', Ok tt)
           /\ requests w'' = requests w' ++ [prompt raw2 (card_label p)].
Proof.
  intros Hp Hf Hmark Hno. pose proof Hp as [Hdir Hcsv].
  pose proof (inbox_csv_name p Hp) as Hname.
  destruct (process_file_outcome p w _ Hdir Hname Hf Hmark)
    as [(raw' & nz & E & Hc' & Hacc & _) | (e & _ & Hrun)].
  { exfalso. apply Hno. exists raw', nz. auto. }
  destruct (after_failure_files w p f e (sent_for p f) Hp Hmark)
    as (_ & _ & Hm & _).
  eexists. split; [exact Hrun|]. split; [exact Hm|].
  intros raw2.
  set (w1 := redrop (after_failure w p f e (sent_for p f)) p (TextFile raw2)).
  assert (Hf1 : fs w1 !! p = Some (TextFile raw2))
    by (unfold w1, redrop, set_fs; cbn [fs]; apply lookup_insert_eq).
  assert (Hm1 : fs w1 !! marker p = None).
  { unfold w1, redrop, set_fs. cbn [fs].
    rewrite lookup_insert_ne
      by (apply not_eq_sym, marker_not_inbox_csv, Hp).
    exact Hm. }
  destruct (process_file_outcome p w1 _ Hdir Hname Hf1 Hm1)
    as [(r & nz & E & _ & _ & Hrun1) | (e1 & _ & Hrun1)].
  - injection E as <-. eexists. split; [exact Hrun1|]. reflexivity.
  - eexists. split; [exact Hrun1|]. reflexivity.
Qed.

(** One scan of the inbox: for any listing, in any order, of distinct
    files that are there, the loop goes through all of them without an
    exception and leaves in the inbox only files that have their
    marker. *)
Theorem scan_empties_the_inbox (files : list Path) (w : World) :
  NoDup files ->
  (forall p, In p files -> is_inbox_csv p /\ is_Some (fs w !! p)) ->
  exists w' : World,
    process_all files w = (w', Ok tt)
    /\ forall p, In p files ->
         fs w' !! p = None \/ is_Some (fs w' !! marker p).
Proof.
  intros Hnd Hall.
  destruct (process_all_inv files w Hnd Hall) as (w' & Hrun & Hdone & _).
  exists w'. auto.
Qed.

(** A scan over files that all have their marker changes nothing. *)
Theorem scan_of_marked_files_is_idle (files : list Path) (w : World) :
  (forall p, In p files ->
     name p <> EmptyString /\ is_Some (fs w !! marker p)) ->
  process_all files w = (w, Ok tt).
Proof.
  induction files as [|p rest IH]; intros Hall; [reflexivity|].
  destruct (Hall p (or_introl eq_refl)) as [Hname Hmark].
  simpl. unfold mbind at 1. unfold M_bind at 1.
  rewrite (process_file_marked p w Hname Hmark).
  apply IH. intros q Hq. apply Hall. right. exact Hq.
Qed.

End Process.

Lemma amex_march_inbox_csv : is_inbox_csv amex_march.
Proof. split; reflexivity. Qed.

Lemma good_reply_accepted : reply_accepted good_reply.
Proof.
  unfold reply_accepted. eexists _, _.
  split; [vm_compute; reflexivity|]. split; vm_compute; reflexivity.
Qed.

Lemma prose_does_not_go_through :
  ~ goes_through chat_prose amex_march (TextFile "Date,Desc,Amt").
Proof.
  intros (raw & nz & E & Hc & (fl & rl & Hl & Hg & _)).
  injection Hc as <-. vm_compute in Hl. injection Hl as <- <-.
  vm_compute in Hg. discriminate.
Qed.

Lemma accepted_reply_is_archived_witness :
  exists w' : World,
    process_file chat_good stamp amex_march world_unmarked = (w', Ok tt)
    /\ fs w' !! amex_march = None
    /\ fs w' !! raw_path amex_march = Some (TextFile "Date,Desc,Amt")
    /\ fs w' !! out_path stamp world_unmarked amex_march
       = Some (TextFile good_reply)
    /\ fs w' !! marker amex_march = Some (TextFile EmptyString)
    /\ log w' = log world_unmarked ++ [processed_entry world_unmarked amex_march]
    /\ requests w'
       = requests world_unmarked
         ++ [prompt "Date,Desc,Amt" (card_label amex_march)].
Proof.
  apply (accepted_reply_is_archived chat_good stamp amex_march
           world_unmarked "Date,Desc,Amt" good_reply).
  - exact amex_march_inbox_csv.
  - vm_compute. reflexivity.
  - vm_compute. reflexivity.
  - reflexivity.
  - exact good_reply_accepted.
Defined.

Lemma processed_name_is_skipped_for_good_witness :
  exists w' : World,
    process_file chat_good stamp amex_march world_unmarked = (w', Ok tt)
    /\ forall f2 : file,
         process_file chat_good stamp amex_march (redrop w' amex_march f2)
         = (redrop w' amex_march f2, Ok tt).
Proof.
  apply (processed_name_is_skipped_for_good chat_good stamp amex_march
           world_unmarked "Date,Desc,Amt" good_reply).
  - exact amex_march_inbox_csv.
  - vm_compute. reflexivity.
  - vm_compute. reflexivity.
  - reflexivity.
  - exact good_reply_accepted.
Defined.

Lemma failed_name_is_retried_witness :
  exists w' : World,
    process_file chat_prose stamp amex_march world_unmarked = (w', Ok tt)
    /\ fs w' !! marker amex_march = None
    /\ forall raw2 : string,
         exists w'' : World,
           process_file chat_prose stamp amex_march
             (redrop w' amex_march (TextFile raw2)) = (w'', Ok tt)
           /\ requests w''
              = requests w' ++ [prompt raw2 (card_label amex_march)].
Proof.
  apply (failed_name_is_retried chat_prose stamp amex_march world_unmarked
           (TextFile "Date,Desc,Amt")).
  - exact amex_march_inbox_csv.
  - vm_compute. reflexivity.
  - vm_compute. reflexivity.
  - exact prose_does_not_go_through.
Defined.

Lemma scan_empties_the_inbox_witness :
  exists w' : World,
    process_all chat_prose stamp [amex_march] world_unmarked = (w', Ok tt)
    /\ forall p, In p [amex_march] ->
         fs w' !! p = None \/ is_Some (fs w' !! marker p).
Proof.
  apply (scan_empties_the_inbox chat_prose stamp [amex_march] world_unmarked).
  - apply NoDup_cons. split; [apply not_elem_of_nil | apply NoDup_nil_2].
  - intros p [<-|[]]. split; [exact amex_march_inbox_csv|].
    exists (TextFile "Date,Desc,Amt"). vm_compute. reflexivity.
Defined.

Lemma scan_of_marked_files_is_idle_witness :
  process_all chat_prose stamp [amex_march] world_marked
  = (world_marked, Ok tt).
Proof.
  apply (scan_of_marked_files_is_idle chat_prose stamp [amex_march]
           world_marked).
  intros p [<-|[]]. split; [discriminate|].
  exists (TextFile EmptyString). vm_compute. reflexivity.
Defined.

End LifecycleSpec.
